(** * unilink: input validation, TCP server builder and wrapper, error handler

    A shallow embedding of the configuration-time validators
    ([common::InputValidator]), of the TCP server builder
    ([builder::TcpServerBuilder]), of the server wrapper
    ([wrapper::TcpServer]) and of the process-wide error sink
    ([common::ErrorHandler]), with the properties the specification states
    about them.

    Conventions.  A C++ function that may throw returns an [outcome];
    a member function that mutates its object takes the object and returns
    the new one; calls that leave the object (channel calls, user callbacks,
    the standard error stream) are recorded in a trace of events.
    [std::string] is [string], [size_t] and the other unsigned types are [N],
    [int] and [long long] are [Z] with their range checks written out. *)

From Stdlib Require Import ZArith NArith List String Ascii Bool Lia.
From Stdlib Require Import DecimalString.
From stdpp Require Import gmap strings list.

Local Open Scope string_scope.

(** ** Exceptions and results *)

Inductive exn : Type :=
| ValidationException (message field expected : string)
| BuilderException (message builder operation : string)
| InvalidArgument (what : string)
| OutOfRange (what : string)
| RuntimeError (what : string).

Inductive outcome (A : Type) : Type :=
| Returns (a : A)
| Throws (e : exn).

Arguments Returns {A} a.
Arguments Throws {A} e.

#[global] Instance outcome_ret : MRet outcome := fun _ a => Returns a.

#[global] Instance outcome_bind : MBind outcome := fun _ _ k c =>
  match c with
  | Returns a => k a
  | Throws e => Throws e
  end.

Definition returned {A} (c : outcome A) : bool :=
  match c with Returns _ => true | Throws _ => false end.

Definition thrown {A} (c : outcome A) : bool := negb (returned c).

(** [std::to_string] on an unsigned value. *)
Definition to_string (n : N) : string := NilZero.string_of_uint (N.to_uint n).

(** ** <cctype> in the "C" locale, and the <string> conversions

    The classes of the "C" locale hold ASCII characters only: a [char] from
    128 on is in none of them. *)

Module CType.

Definition code (c : ascii) : N := N_of_ascii c.

Definition in_range (lo hi : N) (c : ascii) : bool :=
  ((lo <=? code c) && (code c <=? hi))%N.

Definition isdigit (c : ascii) : bool := in_range 48 57 c.
Definition isupper (c : ascii) : bool := in_range 65 90 c.
Definition islower (c : ascii) : bool := in_range 97 122 c.
Definition isalpha (c : ascii) : bool := isupper c || islower c.
Definition isalnum (c : ascii) : bool := isalpha c || isdigit c.

(** space, and \t \n \v \f \r *)
Definition isspace (c : ascii) : bool :=
  (code c =? 32)%N || in_range 9 13 c.

Definition isxdigit (c : ascii) : bool :=
  isdigit c || in_range 65 70 c || in_range 97 102 c.

Definition digit_value (c : ascii) : Z := Z.of_N (code c) - 48.

(** [::tolower]: an upper case letter becomes the lower case one, any
    other character is unchanged. *)
Definition tolower (c : ascii) : ascii :=
  if isupper c then ascii_of_N (code c + 32) else c.

End CType.

(** [std::stoi] and [std::stoll] go through [strtol]/[strtoll] in base 10:
    leading white space is skipped, one sign is taken, then the longest run
    of digits; what follows the digits is ignored.  No digit at all is
    [std::invalid_argument], a value outside the target type is
    [std::out_of_range]. *)
Module StrTo.
Import CType.

Fixpoint skip_space (s : string) : string :=
  match s with
  | String c rest => if isspace c then skip_space rest else s
  | EmptyString => s
  end.

(** The digits are accumulated left to right; the result is [None] when
    no digit was read. *)
Fixpoint digits (acc : option Z) (s : string) : option Z :=
  match s with
  | String c rest =>
      if isdigit c
      then digits (Some (10 * default 0%Z acc + digit_value c)%Z) rest
      else acc
  | EmptyString => acc
  end.

Definition signed_digits (s : string) : option Z :=
  match s with
  | String c rest =>
      if Ascii.eqb c "-" then Z.opp <$> digits None rest
      else if Ascii.eqb c "+" then digits None rest
      else digits None s
  | EmptyString => None
  end.

Definition parse (s : string) : option Z := signed_digits (skip_space s).

Definition convert (fn : string) (lo hi : Z) (s : string) : outcome Z :=
  match parse s with
  | None => Throws (InvalidArgument fn)
  | Some v =>
      if ((lo <=? v) && (v <=? hi))%Z then Returns v
      else Throws (OutOfRange fn)
  end.

Definition INT_MIN : Z := - 2 ^ 31.
Definition INT_MAX : Z := 2 ^ 31 - 1.
Definition LLONG_MIN : Z := - 2 ^ 63.
Definition LLONG_MAX : Z := 2 ^ 63 - 1.

Definition stoi : string -> outcome Z := convert "stoi" INT_MIN INT_MAX.
Definition stoll : string -> outcome Z := convert "stoll" LLONG_MIN LLONG_MAX.

End StrTo.

(** ** std::getline over a std::stringstream

    [while (std::getline(ss, item, delim))] yields the pieces between
    delimiters.  A piece that ends at the end of the input is yielded only
    when it is not empty, or, said with the stream: the call that extracts
    nothing, not even a delimiter, fails.  So ["a.b"] gives [a; b], ["a."]
    gives [a], ["."] gives one empty piece and [""] gives none. *)
Module Stream.

(** One call: [None] is the failed extraction, otherwise the line and the
    rest of the stream. *)
Fixpoint getline (delim : ascii) (s : string) : option (string * string) :=
  match s with
  | EmptyString => None
  | String c rest =>
      if Ascii.eqb c delim then Some (EmptyString, rest)
      else match getline delim rest with
           | Some (line, rest') => Some (String c line, rest')
           | None => Some (String c EmptyString, EmptyString)
           end
  end.

(** The lines of all the calls of the loop, in order: the first line of
    [String c rest] is [c] put before the first line of [rest]. *)
Fixpoint getlines (delim : ascii) (s : string) : list string :=
  match s with
  | EmptyString => []
  | String c rest =>
      if Ascii.eqb c delim then EmptyString :: getlines delim rest
      else match getlines delim rest with
           | line :: lines => String c line :: lines
           | [] => [String c EmptyString]
           end
  end.

End Stream.

(** ** common::InputValidator *)

Module InputValidator.
Import CType StrTo Stream.

Definition MAX_HOSTNAME_LENGTH : N := 253.
Definition MAX_DEVICE_PATH_LENGTH : N := 256.

Definition size (s : string) : N := N.of_nat (String.length s).

Definition empty (s : string) : bool :=
  match s with EmptyString => true | _ => false end.

(** [s.front()] and [s.back()]; both are called on non-empty strings only,
    the value given for the empty string is never used. *)
Definition front (s : string) : ascii :=
  match s with String c _ => c | EmptyString => zero end.

Fixpoint back (s : string) : ascii :=
  match s with
  | String c EmptyString => c
  | String _ rest => back rest
  | EmptyString => zero
  end.

(** [s.substr(pos)] and [s.substr(0, n)], for [pos <= s.size()]. *)
Fixpoint substr_from (pos : nat) (s : string) : string :=
  match pos, s with
  | S p, String _ rest => substr_from p rest
  | _, _ => s
  end.

Fixpoint substr_to (n : nat) (s : string) : string :=
  match n, s with
  | S p, String c rest => String c (substr_to p rest)
  | _, _ => EmptyString
  end.

(** [for (char c : s) if (!p(c)) return false;] *)
Fixpoint all_chars (p : ascii -> bool) (s : string) : bool :=
  match s with
  | EmptyString => true
  | String c rest => p c && all_chars p rest
  end.

Definition validate_non_empty_string (str field_name : string)
  : outcome unit :=
  if empty str
  then Throws (ValidationException (field_name ++ " cannot be empty")
                 field_name "non-empty string")
  else Returns ().

Definition validate_string_length (str : string) (max_length : N)
    (field_name : string) : outcome unit :=
  if (max_length <? size str)%N
  then Throws (ValidationException
                 (field_name ++ " length exceeds maximum allowed length")
                 field_name ("length <= " ++ to_string max_length))
  else Returns ().

(** One octet of [is_valid_ipv4]: the body of the loop over the octets. *)
Definition valid_octet (oct : string) : bool :=
  if empty oct then false
  else if (1 <? size oct)%N && Ascii.eqb (front oct) "0" then false
  else if negb (all_chars isdigit oct) then false
  else match stoll oct with
       | Returns value => negb ((value <? 0)%Z || (255 <? value)%Z)
       | Throws _ => false
       end.

Definition is_valid_ipv4 (address : string) : bool :=
  let octets := getlines "." address in
  if negb (Nat.eqb (List.length octets) 4) then false
  else forallb valid_octet octets.

(** The pattern of [is_valid_ipv6] is
    [^([0-9a-fA-F]{1,4}:){7}[0-9a-fA-F]{1,4}$|^::1$|^::$].
    [hex_run] reads the longest run of hexadecimal digits; as [:] is not
    one of them, a group [[0-9a-fA-F]{1,4}] that must be followed by [:]
    or by the end matches exactly when that run has 1 to 4 characters. *)
Fixpoint hex_run (s : string) : nat * string :=
  match s with
  | String c rest =>
      if isxdigit c then let '(n, r) := hex_run rest in (S n, r)
      else (0, s)
  | EmptyString => (0, s)
  end.

(** [groups] more groups each followed by [:], then a last group and the
    end of the string. *)
Fixpoint match_groups (groups : nat) (s : string) : bool :=
  let '(n, r) := hex_run s in
  if negb ((1 <=? n)%nat && (n <=? 4)%nat) then false
  else match groups, r with
       | O, EmptyString => true
       | S g, String ":" r' => match_groups g r'
       | _, _ => false
       end.

Definition is_valid_ipv6 (address : string) : bool :=
  match_groups 7 address || String.eqb address "::1"
  || String.eqb address "::".

(** One label of [is_valid_hostname]: the body of the loop over the
    labels. *)
Definition valid_label (label : string) : bool :=
  if empty label || (63 <? size label)%N then false
  else all_chars (fun c => isalnum c || Ascii.eqb c "-") label.

Definition is_valid_hostname (hostname : string) : bool :=
  if empty hostname || (MAX_HOSTNAME_LENGTH <? size hostname)%N then false
  else if Ascii.eqb (front hostname) "-" || Ascii.eqb (back hostname) "-"
  then false
  else forallb valid_label (getlines "." hostname).

Definition is_valid_device_path (device : string) : bool :=
  if empty device then false
  else if Ascii.eqb (front device) "/" then
    all_chars (fun c => isalnum c || Ascii.eqb c "/" || Ascii.eqb c "_"
                        || Ascii.eqb c "-") device
  else if (4 <=? size device)%N && String.eqb (substr_to 3 device) "COM" then
    match stoi (substr_from 3 device) with
    | Returns port => (1 <=? port)%Z && (port <=? 255)%Z
    | Throws _ => false
    end
  else if String.eqb device "NUL" || String.eqb device "CON"
          || String.eqb device "PRN" || String.eqb device "AUX"
          || String.eqb device "LPT1" || String.eqb device "LPT2"
          || String.eqb device "LPT3"
  then true
  else false.

Definition validate_host (host : string) : outcome unit :=
  validate_non_empty_string host "host" ;;
  validate_string_length host MAX_HOSTNAME_LENGTH "host" ;;
  if is_valid_ipv4 host then Returns ()
  else if is_valid_ipv6 host then Returns ()
  else if is_valid_hostname host then Returns ()
  else Throws (ValidationException "invalid host format" "host"
                 "valid IPv4, IPv6, or hostname").

Definition validate_device_path (device : string) : outcome unit :=
  validate_non_empty_string device "device_path" ;;
  validate_string_length device MAX_DEVICE_PATH_LENGTH "device_path" ;;
  if negb (is_valid_device_path device)
  then Throws (ValidationException "invalid device path format"
                 "device_path" "valid device path")
  else Returns ().

(** [validate_port] on a [uint16_t]. *)
Definition validate_port (port : N) : outcome unit :=
  if (port =? 0)%N
  then Throws (ValidationException "port cannot be zero" "port"
                 "non-zero port number")
  else Returns ().

(** [std::transform(s.begin(), s.end(), s.begin(), f)] *)
Fixpoint transform (f : ascii -> ascii) (s : string) : string :=
  match s with
  | EmptyString => EmptyString
  | String c rest => String (f c) (transform f rest)
  end.

Definition validate_ipv4_address (address : string) : outcome unit :=
  validate_non_empty_string address "ipv4_address" ;;
  if negb (is_valid_ipv4 address)
  then Throws (ValidationException "invalid IPv4 address format"
                 "ipv4_address" "valid IPv4 address")
  else Returns ().

Definition validate_ipv6_address (address : string) : outcome unit :=
  validate_non_empty_string address "ipv6_address" ;;
  if negb (is_valid_ipv6 address)
  then Throws (ValidationException "invalid IPv6 address format"
                 "ipv6_address" "valid IPv6 address")
  else Returns ().

Definition validate_parity (parity : string) : outcome unit :=
  validate_non_empty_string parity "parity" ;;
  let lower_parity := transform tolower parity in
  if negb (String.eqb lower_parity "none")
     && negb (String.eqb lower_parity "odd")
     && negb (String.eqb lower_parity "even")
  then Throws (ValidationException "invalid parity value" "parity"
                 "none, odd, or even")
  else Returns ().

End InputValidator.

(** ** common::LinkState, the channel interface and the events of a run *)

Module Common.

Inductive LinkState : Type :=
| Idle | Connecting | Listening | Connected | Closed | Error.

(** [safe_convert::string_to_uint8] and [safe_convert::uint8_to_string]:
    the bytes of the string, and back.  A null pointer or a size of zero
    gives the empty string, which is what the empty list gives here. *)
Definition string_to_uint8 (str : string) : list Byte.byte :=
  list_byte_of_string str.

Definition uint8_to_string (data : list Byte.byte) : string :=
  string_of_list_byte data.

(** [clean_message] of [log_message]: the message without its last
    character when that character is a newline. *)
Fixpoint pop_back (s : string) : string :=
  match s with
  | EmptyString => EmptyString
  | String c EmptyString => EmptyString
  | String c rest => String c (pop_back rest)
  end.

Definition clean_message (message : string) : string :=
  if negb (InputValidator.empty message)
     && Ascii.eqb (InputValidator.back message) "010"
  then pop_back message else message.

(** [log_message]: the arguments with which [Logger::info] is called. *)
Definition log_message (tag direction message : string)
  : string * string * string :=
  (tag, direction, clean_message message).

(** [safe_memory::safe_memcpy].  A pointer is null ([None]) or points to
    a buffer, given by its bytes; the result is the destination buffer
    after the call.  [std::memcpy] is defined when both buffers hold [size]
    bytes at least and do not overlap. *)
Definition MAX_COPY_SIZE : N := 1024 * 1024.

Definition memcpy (dest src : list Byte.byte) (size : N) : list Byte.byte :=
  (take (N.to_nat size) src ++ drop (N.to_nat size) dest)%list.

Definition safe_memcpy (dest src : option (list Byte.byte)) (size : N)
  : outcome (list Byte.byte) :=
  match dest with
  | None => Throws (InvalidArgument "Destination pointer is null")
  | Some d =>
      match src with
      | None => Throws (InvalidArgument "Source pointer is null")
      | Some s =>
          if (size =? 0)%N then Returns d
          else if (MAX_COPY_SIZE <? size)%N
          then Throws (InvalidArgument "Copy size too large (max 1MB)")
          else Returns (memcpy d s size)
      end
  end.

End Common.

Module Wrapper.
Import Common.

(** A user callback ([std::function]) is known by a name; the empty
    [std::function] is [None].  What a callback does when it runs is not
    modelled: its invocation is recorded in the trace. *)
Definition handler : Type := nat.

(** [explicit operator bool] of [std::function]. *)
Definition callable (h : option handler) : bool :=
  match h with Some _ => true | None => false end.

(** The fields of [config::TcpServerConfig] that [start] assigns. *)
Record TcpServerConfig : Type := {
  port : N;
  enable_port_retry : bool;
  max_port_retries : Z;
  port_retry_interval_ms : Z
}.

(** [interface::Channel], with the members of [transport::TcpServer] that
    the wrapper reaches through [std::dynamic_pointer_cast].  The
    implementations are not part of the wrapper: a channel is any type
    with these operations.  [create] is [factory::ChannelFactory::create]
    and [is_transport_server] says whether the cast succeeds.  There is
    no operation for [stop]: the wrapper drops its channel right after
    stopping it, so the call is only recorded as an event. *)
Class Channel (C : Type) : Type := {
  create : TcpServerConfig -> C;
  ch_start : C -> C;
  ch_is_connected : C -> bool;
  ch_async_write_copy : list Byte.byte -> C -> C;
  ch_on_bytes : C -> C;
  ch_on_state : C -> C;
  is_transport_server : C -> bool;
  ts_set_client_limit : N -> C -> C;
  ts_set_unlimited_clients : C -> C;
  ts_get_client_count : C -> N;
  ts_get_connected_clients : C -> list N;
  ts_broadcast : string -> C -> C;
  ts_send_to_client : N -> string -> C -> C;
  ts_on_multi_connect : C -> C;
  ts_on_multi_data : C -> C;
  ts_on_multi_disconnect : C -> C
}.

(** What a call does outside the object it is called on. *)
Inductive Event : Type :=
| ChannelCreate (config : TcpServerConfig)
| ChannelStart
| ChannelStop
| ChannelWrite (data : list Byte.byte)
| Sleep (ms : N)
| InvokeOnData (h : handler) (data : string)
| InvokeOnConnect (h : handler)
| InvokeOnDisconnect (h : handler)
| InvokeOnError (h : handler) (message : string)
| CreateIndependentContext
| EnsureIoContextRunning
| ServerConstruct (port : N).

Section TcpServer.
Context {C : Type} `{!Channel C}.

Record TcpServer : Type := {
  channel_ : option C;
  port_ : N;
  started_ : bool;
  auto_start_ : bool;
  auto_manage_ : bool;
  port_retry_enabled_ : bool;
  max_port_retries_ : Z;
  port_retry_interval_ms_ : Z;
  client_limit_enabled_ : bool;
  max_clients_ : N;
  is_listening_ : bool;
  on_data_ : option handler;
  on_connect_ : option handler;
  on_disconnect_ : option handler;
  on_error_ : option handler;
  on_multi_connect_ : option handler;
  on_multi_data_ : option handler;
  on_multi_disconnect_ : option handler
}.

(** Assignment to one member. *)
Definition set_channel_ (v : option C) (s : TcpServer) : TcpServer :=
  Build_TcpServer v (port_ s) (started_ s) (auto_start_ s) (auto_manage_
    s) (port_retry_enabled_ s) (max_port_retries_ s)
    (port_retry_interval_ms_ s) (client_limit_enabled_ s) (max_clients_
    s) (is_listening_ s) (on_data_ s) (on_connect_ s) (on_disconnect_ s)
    (on_error_ s) (on_multi_connect_ s) (on_multi_data_ s)
    (on_multi_disconnect_ s).

Definition set_started_ (v : bool) (s : TcpServer) : TcpServer :=
  Build_TcpServer (channel_ s) (port_ s) v (auto_start_ s) (auto_manage_
    s) (port_retry_enabled_ s) (max_port_retries_ s)
    (port_retry_interval_ms_ s) (client_limit_enabled_ s) (max_clients_
    s) (is_listening_ s) (on_data_ s) (on_connect_ s) (on_disconnect_ s)
    (on_error_ s) (on_multi_connect_ s) (on_multi_data_ s)
    (on_multi_disconnect_ s).

Definition set_auto_start_ (v : bool) (s : TcpServer) : TcpServer :=
  Build_TcpServer (channel_ s) (port_ s) (started_ s) v (auto_manage_ s)
    (port_retry_enabled_ s) (max_port_retries_ s)
    (port_retry_interval_ms_ s) (client_limit_enabled_ s) (max_clients_
    s) (is_listening_ s) (on_data_ s) (on_connect_ s) (on_disconnect_ s)
    (on_error_ s) (on_multi_connect_ s) (on_multi_data_ s)
    (on_multi_disconnect_ s).

Definition set_auto_manage_ (v : bool) (s : TcpServer) : TcpServer :=
  Build_TcpServer (channel_ s) (port_ s) (started_ s) (auto_start_ s) v
    (port_retry_enabled_ s) (max_port_retries_ s)
    (port_retry_interval_ms_ s) (client_limit_enabled_ s) (max_clients_
    s) (is_listening_ s) (on_data_ s) (on_connect_ s) (on_disconnect_ s)
    (on_error_ s) (on_multi_connect_ s) (on_multi_data_ s)
    (on_multi_disconnect_ s).

Definition set_port_retry_enabled_ (v : bool) (s : TcpServer) : TcpServer :=
  Build_TcpServer (channel_ s) (port_ s) (started_ s) (auto_start_ s)
    (auto_manage_ s) v (max_port_retries_ s) (port_retry_interval_ms_ s)
    (client_limit_enabled_ s) (max_clients_ s) (is_listening_ s)
    (on_data_ s) (on_connect_ s) (on_disconnect_ s) (on_error_ s)
    (on_multi_connect_ s) (on_multi_data_ s) (on_multi_disconnect_ s).

Definition set_max_port_retries_ (v : Z) (s : TcpServer) : TcpServer :=
  Build_TcpServer (channel_ s) (port_ s) (started_ s) (auto_start_ s)
    (auto_manage_ s) (port_retry_enabled_ s) v (port_retry_interval_ms_
    s) (client_limit_enabled_ s) (max_clients_ s) (is_listening_ s)
    (on_data_ s) (on_connect_ s) (on_disconnect_ s) (on_error_ s)
    (on_multi_connect_ s) (on_multi_data_ s) (on_multi_disconnect_ s).

Definition set_port_retry_interval_ms_ (v : Z) (s : TcpServer) : TcpServer :=
  Build_TcpServer (channel_ s) (port_ s) (started_ s) (auto_start_ s)
    (auto_manage_ s) (port_retry_enabled_ s) (max_port_retries_ s) v
    (client_limit_enabled_ s) (max_clients_ s) (is_listening_ s)
    (on_data_ s) (on_connect_ s) (on_disconnect_ s) (on_error_ s)
    (on_multi_connect_ s) (on_multi_data_ s) (on_multi_disconnect_ s).

Definition set_client_limit_enabled_ (v : bool) (s : TcpServer) : TcpServer :=
  Build_TcpServer (channel_ s) (port_ s) (started_ s) (auto_start_ s)
    (auto_manage_ s) (port_retry_enabled_ s) (max_port_retries_ s)
    (port_retry_interval_ms_ s) v (max_clients_ s) (is_listening_ s)
    (on_data_ s) (on_connect_ s) (on_disconnect_ s) (on_error_ s)
    (on_multi_connect_ s) (on_multi_data_ s) (on_multi_disconnect_ s).

Definition set_max_clients_ (v : N) (s : TcpServer) : TcpServer :=
  Build_TcpServer (channel_ s) (port_ s) (started_ s) (auto_start_ s)
    (auto_manage_ s) (port_retry_enabled_ s) (max_port_retries_ s)
    (port_retry_interval_ms_ s) (client_limit_enabled_ s) v
    (is_listening_ s) (on_data_ s) (on_connect_ s) (on_disconnect_ s)
    (on_error_ s) (on_multi_connect_ s) (on_multi_data_ s)
    (on_multi_disconnect_ s).

Definition set_is_listening_ (v : bool) (s : TcpServer) : TcpServer :=
  Build_TcpServer (channel_ s) (port_ s) (started_ s) (auto_start_ s)
    (auto_manage_ s) (port_retry_enabled_ s) (max_port_retries_ s)
    (port_retry_interval_ms_ s) (client_limit_enabled_ s) (max_clients_
    s) v (on_data_ s) (on_connect_ s) (on_disconnect_ s) (on_error_ s)
    (on_multi_connect_ s) (on_multi_data_ s) (on_multi_disconnect_ s).

Definition set_on_data_ (v : option handler) (s : TcpServer) : TcpServer :=
  Build_TcpServer (channel_ s) (port_ s) (started_ s) (auto_start_ s)
    (auto_manage_ s) (port_retry_enabled_ s) (max_port_retries_ s)
    (port_retry_interval_ms_ s) (client_limit_enabled_ s) (max_clients_
    s) (is_listening_ s) v (on_connect_ s) (on_disconnect_ s) (on_error_
    s) (on_multi_connect_ s) (on_multi_data_ s) (on_multi_disconnect_ s).

Definition set_on_connect_ (v : option handler) (s : TcpServer) : TcpServer :=
  Build_TcpServer (channel_ s) (port_ s) (started_ s) (auto_start_ s)
    (auto_manage_ s) (port_retry_enabled_ s) (max_port_retries_ s)
    (port_retry_interval_ms_ s) (client_limit_enabled_ s) (max_clients_
    s) (is_listening_ s) (on_data_ s) v (on_disconnect_ s) (on_error_ s)
    (on_multi_connect_ s) (on_multi_data_ s) (on_multi_disconnect_ s).

Definition set_on_disconnect_ (v : option handler) (s : TcpServer) : TcpServer :=
  Build_TcpServer (channel_ s) (port_ s) (started_ s) (auto_start_ s)
    (auto_manage_ s) (port_retry_enabled_ s) (max_port_retries_ s)
    (port_retry_interval_ms_ s) (client_limit_enabled_ s) (max_clients_
    s) (is_listening_ s) (on_data_ s) (on_connect_ s) v (on_error_ s)
    (on_multi_connect_ s) (on_multi_data_ s) (on_multi_disconnect_ s).

Definition set_on_error_ (v : option handler) (s : TcpServer) : TcpServer :=
  Build_TcpServer (channel_ s) (port_ s) (started_ s) (auto_start_ s)
    (auto_manage_ s) (port_retry_enabled_ s) (max_port_retries_ s)
    (port_retry_interval_ms_ s) (client_limit_enabled_ s) (max_clients_
    s) (is_listening_ s) (on_data_ s) (on_connect_ s) (on_disconnect_ s)
    v (on_multi_connect_ s) (on_multi_data_ s) (on_multi_disconnect_ s).

Definition set_on_multi_connect_ (v : option handler) (s : TcpServer) : TcpServer :=
  Build_TcpServer (channel_ s) (port_ s) (started_ s) (auto_start_ s)
    (auto_manage_ s) (port_retry_enabled_ s) (max_port_retries_ s)
    (port_retry_interval_ms_ s) (client_limit_enabled_ s) (max_clients_
    s) (is_listening_ s) (on_data_ s) (on_connect_ s) (on_disconnect_ s)
    (on_error_ s) v (on_multi_data_ s) (on_multi_disconnect_ s).

Definition set_on_multi_data_ (v : option handler) (s : TcpServer) : TcpServer :=
  Build_TcpServer (channel_ s) (port_ s) (started_ s) (auto_start_ s)
    (auto_manage_ s) (port_retry_enabled_ s) (max_port_retries_ s)
    (port_retry_interval_ms_ s) (client_limit_enabled_ s) (max_clients_
    s) (is_listening_ s) (on_data_ s) (on_connect_ s) (on_disconnect_ s)
    (on_error_ s) (on_multi_connect_ s) v (on_multi_disconnect_ s).

Definition set_on_multi_disconnect_ (v : option handler) (s : TcpServer) : TcpServer :=
  Build_TcpServer (channel_ s) (port_ s) (started_ s) (auto_start_ s)
    (auto_manage_ s) (port_retry_enabled_ s) (max_port_retries_ s)
    (port_retry_interval_ms_ s) (client_limit_enabled_ s) (max_clients_
    s) (is_listening_ s) (on_data_ s) (on_connect_ s) (on_disconnect_ s)
    (on_error_ s) (on_multi_connect_ s) (on_multi_data_ s) v.

(** A member function: the object after the call and the events of the
    call. *)
Definition method : Type := TcpServer -> TcpServer * list Event.

Definition skip : method := fun s => (s, []).

Definition seq_ (m1 m2 : method) : method := fun s =>
  let '(s1, t1) := m1 s in
  let '(s2, t2) := m2 s1 in
  (s2, (t1 ++ t2)%list).

Definition assign (f : TcpServer -> TcpServer) : method :=
  fun s => (f s, []).

(** A call on the channel when there is one that is a
    [transport::TcpServer], nothing otherwise. *)
Definition on_transport (f : C -> C) : method := fun s =>
  match channel_ s with
  | Some c =>
      if is_transport_server c then (set_channel_ (Some (f c)) s, [])
      else (s, [])
  | None => (s, [])
  end.

(** [TcpServer::TcpServer(uint16_t port)]: the members take their
    default initialisers, the channel is created later. *)
Definition TcpServer_new (port : N) : TcpServer := {|
  channel_ := None; port_ := port; started_ := false;
  auto_start_ := false; auto_manage_ := false;
  port_retry_enabled_ := false; max_port_retries_ := 3;
  port_retry_interval_ms_ := 1000;
  client_limit_enabled_ := false; max_clients_ := 0;
  is_listening_ := false;
  on_data_ := None; on_connect_ := None; on_disconnect_ := None;
  on_error_ := None; on_multi_connect_ := None; on_multi_data_ := None;
  on_multi_disconnect_ := None
|}.

Definition setup_internal_handlers : method := fun s =>
  match channel_ s with
  | None => (s, [])
  | Some c =>
      let c := ch_on_state (ch_on_bytes c) in
      let c :=
        if is_transport_server c then
          let c := if callable (on_multi_connect_ s) then ts_on_multi_connect c
                   else c in
          let c := if callable (on_multi_data_ s) then ts_on_multi_data c
                   else c in
          if callable (on_multi_disconnect_ s) then ts_on_multi_disconnect c
          else c
        else c in
      (set_channel_ (Some c) s, [])
  end.

(** [TcpServer::TcpServer(std::shared_ptr<interface::Channel>)] *)
Definition TcpServer_of_channel (channel : C) : TcpServer :=
  fst (setup_internal_handlers
         (set_channel_ (Some channel) (TcpServer_new 0))).

Definition is_connected (s : TcpServer) : bool :=
  match channel_ s with
  | Some c => ch_is_connected c
  | None => false
  end.

Definition start : method := fun s =>
  if started_ s then (s, [])
  else
    let '(s, t) :=
      match channel_ s with
      | Some _ => (s, [])
      | None =>
          let config := {|
            port := port_ s;
            enable_port_retry := port_retry_enabled_ s;
            max_port_retries := max_port_retries_ s;
            port_retry_interval_ms := port_retry_interval_ms_ s |} in
          let s := set_channel_ (Some (create config)) s in
          let '(s, t) := setup_internal_handlers s in
          let '(s, t') :=
            if client_limit_enabled_ s then
              on_transport
                (if (max_clients_ s =? 0)%N then ts_set_unlimited_clients
                 else ts_set_client_limit (max_clients_ s)) s
            else (s, []) in
          (s, (ChannelCreate config :: t ++ t')%list)
      end in
    match channel_ s with
    | Some c =>
        (set_started_ true (set_channel_ (Some (ch_start c)) s),
         (t ++ [ChannelStart])%list)
    | None => (s, t)
    end.

Definition stop : method := fun s =>
  match started_ s, channel_ s with
  | true, Some c =>
      (set_started_ false (set_channel_ None s),
       [ChannelStop; Sleep 100])
  | _, _ => (s, [])
  end.

Definition send (data : string) : method := fun s =>
  match is_connected s, channel_ s with
  | true, Some c =>
      let binary_data := string_to_uint8 data in
      (set_channel_ (Some (ch_async_write_copy binary_data c)) s,
       [ChannelWrite binary_data])
  | _, _ => (s, [])
  end.

Definition send_line (line : string) : method :=
  send (line ++ String "010" EmptyString).

Definition on_data (h : option handler) : method := assign (set_on_data_ h).
Definition on_connect (h : option handler) : method :=
  assign (set_on_connect_ h).
Definition on_disconnect (h : option handler) : method :=
  assign (set_on_disconnect_ h).
Definition on_error (h : option handler) : method :=
  assign (set_on_error_ h).
Definition auto_manage (manage : bool) : method :=
  assign (set_auto_manage_ manage).

Definition handle_bytes (data : list Byte.byte) : method := fun s =>
  match on_data_ s with
  | Some h => (s, [InvokeOnData h (uint8_to_string data)])
  | None => (s, [])
  end.

Definition handle_state (state : LinkState) : method := fun s =>
  let s :=
    match state with
    | Listening => set_is_listening_ true s
    | Error | Closed => set_is_listening_ false s
    | _ => s
    end in
  match state with
  | Connected =>
      (s, match on_connect_ s with
          | Some h => [InvokeOnConnect h] | None => [] end)
  | Closed =>
      (s, match on_disconnect_ s with
          | Some h => [InvokeOnDisconnect h] | None => [] end)
  | Error =>
      (s, match on_error_ s with
          | Some h => [InvokeOnError h "Connection error"]
          | None => [] end)
  | _ => (s, [])
  end.

Definition broadcast (message : string) : method :=
  on_transport (ts_broadcast message).

Definition send_to_client (client_id : N) (message : string) : method :=
  on_transport (ts_send_to_client client_id message).

Definition get_client_count (s : TcpServer) : N :=
  match channel_ s with
  | Some c => if is_transport_server c then ts_get_client_count c else 0%N
  | None => 0%N
  end.

Definition get_connected_clients (s : TcpServer) : list N :=
  match channel_ s with
  | Some c =>
      if is_transport_server c then ts_get_connected_clients c else []
  | None => []
  end.

Definition on_multi_connect (h : option handler) : method :=
  seq_ (assign (set_on_multi_connect_ h)) (on_transport ts_on_multi_connect).
Definition on_multi_data (h : option handler) : method :=
  seq_ (assign (set_on_multi_data_ h)) (on_transport ts_on_multi_data).
Definition on_multi_disconnect (h : option handler) : method :=
  seq_ (assign (set_on_multi_disconnect_ h))
    (on_transport ts_on_multi_disconnect).

(** The branch for an existing channel is empty in the source. *)
Definition enable_port_retry_ (enable : bool) (max_retries : Z)
    (retry_interval_ms : Z) : method :=
  assign (fun s => set_port_retry_interval_ms_ retry_interval_ms
            (set_max_port_retries_ max_retries
               (set_port_retry_enabled_ enable s))).

Definition is_listening (s : TcpServer) : bool := is_listening_ s.

Definition set_client_limit (max_clients : N) : method :=
  seq_ (assign (fun s => set_client_limit_enabled_ true
                           (set_max_clients_ max_clients s)))
    (on_transport (ts_set_client_limit max_clients)).

Definition set_unlimited_clients : method :=
  seq_ (assign (fun s => set_max_clients_ 0
                           (set_client_limit_enabled_ false s)))
    (on_transport ts_set_unlimited_clients).

(** Two servers carry the same client limit; a member function keeps
    the limit of the server it is called on. *)
Definition carries (s s' : TcpServer) : Prop :=
  max_clients_ s' = max_clients_ s
  /\ client_limit_enabled_ s' = client_limit_enabled_ s.

Definition keeps_limit (m : method) : Prop :=
  forall s, carries s (fst (m s)).

(** The calls that can reach a server other than [start] (and
    [auto_start], whose body is not among the sources), and a run of
    them.  [handle_bytes] and [handle_state] are the entry points of the
    channel. *)
Inductive Call : Type :=
| CallStop
| CallSend (data : string)
| CallSendLine (line : string)
| CallOnData (h : option handler)
| CallOnConnect (h : option handler)
| CallOnDisconnect (h : option handler)
| CallOnError (h : option handler)
| CallAutoManage (manage : bool)
| CallHandleBytes (data : list Byte.byte)
| CallHandleState (state : LinkState)
| CallBroadcast (message : string)
| CallSendToClient (client_id : N) (message : string)
| CallOnMultiConnect (h : option handler)
| CallOnMultiData (h : option handler)
| CallOnMultiDisconnect (h : option handler)
| CallEnablePortRetry (enable : bool) (max_retries retry_interval_ms : Z)
| CallSetClientLimit (max_clients : N)
| CallSetUnlimitedClients.

Definition call (c : Call) : method :=
  match c with
  | CallStop => stop
  | CallSend data => send data
  | CallSendLine line => send_line line
  | CallOnData h => on_data h
  | CallOnConnect h => on_connect h
  | CallOnDisconnect h => on_disconnect h
  | CallOnError h => on_error h
  | CallAutoManage manage => auto_manage manage
  | CallHandleBytes data => handle_bytes data
  | CallHandleState state => handle_state state
  | CallBroadcast message => broadcast message
  | CallSendToClient client_id message => send_to_client client_id message
  | CallOnMultiConnect h => on_multi_connect h
  | CallOnMultiData h => on_multi_data h
  | CallOnMultiDisconnect h => on_multi_disconnect h
  | CallEnablePortRetry enable max_retries retry_interval_ms =>
      enable_port_retry_ enable max_retries retry_interval_ms
  | CallSetClientLimit max_clients => set_client_limit max_clients
  | CallSetUnlimitedClients => set_unlimited_clients
  end.

(** The channel that [start] has when it has created it and registered
    the handlers, before it applies the client limit and starts it. *)
Definition fresh_channel (s : TcpServer) : C :=
  let created := create {|
    port := port_ s;
    enable_port_retry := port_retry_enabled_ s;
    max_port_retries := max_port_retries_ s;
    port_retry_interval_ms := port_retry_interval_ms_ s |} in
  match channel_ (fst (setup_internal_handlers
                         (set_channel_ (Some created) s))) with
  | Some c => c
  | None => created
  end.

(** What the state notifications of a run leave in [is_listening_]. *)
Definition listening_after (calls : list Call) (before : bool) : bool :=
  fold_left (fun listening c =>
               match c with
               | CallHandleState Listening => true
               | CallHandleState Closed | CallHandleState Error => false
               | _ => listening
               end) calls before.

(** The configuration that [start] hands to the factory. *)
Definition config_of (s : TcpServer) : TcpServerConfig :=
  {| port := port_ s;
     enable_port_retry := port_retry_enabled_ s;
     max_port_retries := max_port_retries_ s;
     port_retry_interval_ms := port_retry_interval_ms_ s |}.

Fixpoint run (calls : list Call) : method :=
  match calls with
  | [] => skip
  | c :: rest => seq_ (call c) (run rest)
  end.

End TcpServer.

Arguments TcpServer C : clear implicits.
Arguments method C : clear implicits.

End Wrapper.

(** ** builder::TcpServerBuilder *)

Module Builder.

Definition handler : Type := Wrapper.handler.

(** The members that the constructor initialises. *)
Record TcpServerBuilder : Type := {
  port_ : N;
  auto_start_ : bool;
  auto_manage_ : bool;
  use_independent_context_ : bool;
  enable_port_retry_ : bool;
  max_port_retries_ : Z;
  port_retry_interval_ms_ : Z;
  max_clients_ : N;
  client_limit_set_ : bool;
  on_data_ : option handler;
  on_connect_ : option handler;
  on_disconnect_ : option handler;
  on_error_ : option handler;
  on_multi_connect_ : option handler;
  on_multi_data_ : option handler;
  on_multi_disconnect_ : option handler
}.

(** Assignment to one member. *)
Definition set_auto_start_ (v : bool) (s : TcpServerBuilder) : TcpServerBuilder :=
  Build_TcpServerBuilder (port_ s) v (auto_manage_ s)
    (use_independent_context_ s) (enable_port_retry_ s) (max_port_retries_
    s) (port_retry_interval_ms_ s) (max_clients_ s) (client_limit_set_ s)
    (on_data_ s) (on_connect_ s) (on_disconnect_ s) (on_error_ s)
    (on_multi_connect_ s) (on_multi_data_ s) (on_multi_disconnect_ s).

Definition set_auto_manage_ (v : bool) (s : TcpServerBuilder) : TcpServerBuilder :=
  Build_TcpServerBuilder (port_ s) (auto_start_ s) v
    (use_independent_context_ s) (enable_port_retry_ s) (max_port_retries_
    s) (port_retry_interval_ms_ s) (max_clients_ s) (client_limit_set_ s)
    (on_data_ s) (on_connect_ s) (on_disconnect_ s) (on_error_ s)
    (on_multi_connect_ s) (on_multi_data_ s) (on_multi_disconnect_ s).

Definition set_use_independent_context_ (v : bool) (s : TcpServerBuilder) : TcpServerBuilder :=
  Build_TcpServerBuilder (port_ s) (auto_start_ s) (auto_manage_ s) v
    (enable_port_retry_ s) (max_port_retries_ s) (port_retry_interval_ms_
    s) (max_clients_ s) (client_limit_set_ s) (on_data_ s) (on_connect_ s)
    (on_disconnect_ s) (on_error_ s) (on_multi_connect_ s) (on_multi_data_
    s) (on_multi_disconnect_ s).

Definition set_enable_port_retry_ (v : bool) (s : TcpServerBuilder) : TcpServerBuilder :=
  Build_TcpServerBuilder (port_ s) (auto_start_ s) (auto_manage_ s)
    (use_independent_context_ s) v (max_port_retries_ s)
    (port_retry_interval_ms_ s) (max_clients_ s) (client_limit_set_ s)
    (on_data_ s) (on_connect_ s) (on_disconnect_ s) (on_error_ s)
    (on_multi_connect_ s) (on_multi_data_ s) (on_multi_disconnect_ s).

Definition set_max_port_retries_ (v : Z) (s : TcpServerBuilder) : TcpServerBuilder :=
  Build_TcpServerBuilder (port_ s) (auto_start_ s) (auto_manage_ s)
    (use_independent_context_ s) (enable_port_retry_ s) v
    (port_retry_interval_ms_ s) (max_clients_ s) (client_limit_set_ s)
    (on_data_ s) (on_connect_ s) (on_disconnect_ s) (on_error_ s)
    (on_multi_connect_ s) (on_multi_data_ s) (on_multi_disconnect_ s).

Definition set_port_retry_interval_ms_ (v : Z) (s : TcpServerBuilder) : TcpServerBuilder :=
  Build_TcpServerBuilder (port_ s) (auto_start_ s) (auto_manage_ s)
    (use_independent_context_ s) (enable_port_retry_ s) (max_port_retries_
    s) v (max_clients_ s) (client_limit_set_ s) (on_data_ s) (on_connect_
    s) (on_disconnect_ s) (on_error_ s) (on_multi_connect_ s)
    (on_multi_data_ s) (on_multi_disconnect_ s).

Definition set_max_clients_ (v : N) (s : TcpServerBuilder) : TcpServerBuilder :=
  Build_TcpServerBuilder (port_ s) (auto_start_ s) (auto_manage_ s)
    (use_independent_context_ s) (enable_port_retry_ s) (max_port_retries_
    s) (port_retry_interval_ms_ s) v (client_limit_set_ s) (on_data_ s)
    (on_connect_ s) (on_disconnect_ s) (on_error_ s) (on_multi_connect_ s)
    (on_multi_data_ s) (on_multi_disconnect_ s).

Definition set_client_limit_set_ (v : bool) (s : TcpServerBuilder) : TcpServerBuilder :=
  Build_TcpServerBuilder (port_ s) (auto_start_ s) (auto_manage_ s)
    (use_independent_context_ s) (enable_port_retry_ s) (max_port_retries_
    s) (port_retry_interval_ms_ s) (max_clients_ s) v (on_data_ s)
    (on_connect_ s) (on_disconnect_ s) (on_error_ s) (on_multi_connect_ s)
    (on_multi_data_ s) (on_multi_disconnect_ s).

Definition set_on_data_ (v : option handler) (s : TcpServerBuilder) : TcpServerBuilder :=
  Build_TcpServerBuilder (port_ s) (auto_start_ s) (auto_manage_ s)
    (use_independent_context_ s) (enable_port_retry_ s) (max_port_retries_
    s) (port_retry_interval_ms_ s) (max_clients_ s) (client_limit_set_ s)
    v (on_connect_ s) (on_disconnect_ s) (on_error_ s) (on_multi_connect_
    s) (on_multi_data_ s) (on_multi_disconnect_ s).

Definition set_on_connect_ (v : option handler) (s : TcpServerBuilder) : TcpServerBuilder :=
  Build_TcpServerBuilder (port_ s) (auto_start_ s) (auto_manage_ s)
    (use_independent_context_ s) (enable_port_retry_ s) (max_port_retries_
    s) (port_retry_interval_ms_ s) (max_clients_ s) (client_limit_set_ s)
    (on_data_ s) v (on_disconnect_ s) (on_error_ s) (on_multi_connect_ s)
    (on_multi_data_ s) (on_multi_disconnect_ s).

Definition set_on_disconnect_ (v : option handler) (s : TcpServerBuilder) : TcpServerBuilder :=
  Build_TcpServerBuilder (port_ s) (auto_start_ s) (auto_manage_ s)
    (use_independent_context_ s) (enable_port_retry_ s) (max_port_retries_
    s) (port_retry_interval_ms_ s) (max_clients_ s) (client_limit_set_ s)
    (on_data_ s) (on_connect_ s) v (on_error_ s) (on_multi_connect_ s)
    (on_multi_data_ s) (on_multi_disconnect_ s).

Definition set_on_error_ (v : option handler) (s : TcpServerBuilder) : TcpServerBuilder :=
  Build_TcpServerBuilder (port_ s) (auto_start_ s) (auto_manage_ s)
    (use_independent_context_ s) (enable_port_retry_ s) (max_port_retries_
    s) (port_retry_interval_ms_ s) (max_clients_ s) (client_limit_set_ s)
    (on_data_ s) (on_connect_ s) (on_disconnect_ s) v (on_multi_connect_
    s) (on_multi_data_ s) (on_multi_disconnect_ s).

Definition set_on_multi_connect_ (v : option handler) (s : TcpServerBuilder) : TcpServerBuilder :=
  Build_TcpServerBuilder (port_ s) (auto_start_ s) (auto_manage_ s)
    (use_independent_context_ s) (enable_port_retry_ s) (max_port_retries_
    s) (port_retry_interval_ms_ s) (max_clients_ s) (client_limit_set_ s)
    (on_data_ s) (on_connect_ s) (on_disconnect_ s) (on_error_ s) v
    (on_multi_data_ s) (on_multi_disconnect_ s).

Definition set_on_multi_data_ (v : option handler) (s : TcpServerBuilder) : TcpServerBuilder :=
  Build_TcpServerBuilder (port_ s) (auto_start_ s) (auto_manage_ s)
    (use_independent_context_ s) (enable_port_retry_ s) (max_port_retries_
    s) (port_retry_interval_ms_ s) (max_clients_ s) (client_limit_set_ s)
    (on_data_ s) (on_connect_ s) (on_disconnect_ s) (on_error_ s)
    (on_multi_connect_ s) v (on_multi_disconnect_ s).

Definition set_on_multi_disconnect_ (v : option handler) (s : TcpServerBuilder) : TcpServerBuilder :=
  Build_TcpServerBuilder (port_ s) (auto_start_ s) (auto_manage_ s)
    (use_independent_context_ s) (enable_port_retry_ s) (max_port_retries_
    s) (port_retry_interval_ms_ s) (max_clients_ s) (client_limit_set_ s)
    (on_data_ s) (on_connect_ s) (on_disconnect_ s) (on_error_ s)
    (on_multi_connect_ s) (on_multi_data_ s) v.

Definition SIZE_MAX : N := 2 ^ 64 - 1.

(** Modelled from the spec: [common::constants::DEFAULT_RETRY_INTERVAL_MS]
    is declared in a header that is not among the sources; the
    specification gives the default retry interval as 2 000 ms. *)
Definition DEFAULT_RETRY_INTERVAL_MS : Z := 2000.

Definition max_clients (max : N) (b : TcpServerBuilder)
  : outcome TcpServerBuilder :=
  if (max =? 0)%N then
    Throws (InvalidArgument
              "Use unlimited_clients() for unlimited connections")
  else if (max =? 1)%N then
    Throws (InvalidArgument "Use single_client() for single client mode")
  else Returns (set_client_limit_set_ true (set_max_clients_ max b)).

Definition single_client (b : TcpServerBuilder) : TcpServerBuilder :=
  set_client_limit_set_ true (set_max_clients_ 1 b).

Definition multi_client (max : N) (b : TcpServerBuilder)
  : outcome TcpServerBuilder :=
  if (max =? 0)%N then
    Throws (InvalidArgument
              "Use unlimited_clients() for unlimited connections")
  else if (max =? 1)%N then
    Throws (InvalidArgument "Use single_client() for single client mode")
  else Returns (set_client_limit_set_ true (set_max_clients_ max b)).

(** 0 = unlimited *)
Definition unlimited_clients (b : TcpServerBuilder) : TcpServerBuilder :=
  set_client_limit_set_ true (set_max_clients_ 0 b).

Definition auto_start (auto_start : bool) := set_auto_start_ auto_start.
Definition auto_manage (auto_manage : bool) := set_auto_manage_ auto_manage.
Definition on_data (h : option handler) := set_on_data_ h.
Definition on_connect (h : option handler) := set_on_connect_ h.
Definition on_disconnect (h : option handler) := set_on_disconnect_ h.
Definition on_error (h : option handler) := set_on_error_ h.
Definition use_independent_context (use_independent : bool) :=
  set_use_independent_context_ use_independent.
Definition on_multi_connect (h : option handler) := set_on_multi_connect_ h.
Definition on_multi_data (h : option handler) := set_on_multi_data_ h.
Definition on_multi_disconnect (h : option handler) :=
  set_on_multi_disconnect_ h.

Definition enable_port_retry (enable : bool) (max_retries : Z)
    (retry_interval_ms : Z) (b : TcpServerBuilder) : TcpServerBuilder :=
  set_port_retry_interval_ms_ retry_interval_ms
    (set_max_port_retries_ max_retries (set_enable_port_retry_ enable b)).

(** The calls on a builder before [build], and a run of them.  A call
    that throws has not yet changed the builder; the run goes on with the
    builder as it was, as for a caller that catches the exception. *)
Inductive Call : Type :=
| CallAutoStart (auto_start : bool)
| CallAutoManage (auto_manage : bool)
| CallOnData (h : option handler)
| CallOnConnect (h : option handler)
| CallOnDisconnect (h : option handler)
| CallOnError (h : option handler)
| CallUseIndependentContext (use_independent : bool)
| CallOnMultiConnect (h : option handler)
| CallOnMultiData (h : option handler)
| CallOnMultiDisconnect (h : option handler)
| CallEnablePortRetry (enable : bool) (max_retries retry_interval_ms : Z)
| CallMaxClients (max : N)
| CallSingleClient
| CallMultiClient (max : N)
| CallUnlimitedClients.

Definition call (c : Call) (b : TcpServerBuilder)
  : outcome TcpServerBuilder :=
  match c with
  | CallAutoStart v => Returns (auto_start v b)
  | CallAutoManage v => Returns (auto_manage v b)
  | CallOnData h => Returns (on_data h b)
  | CallOnConnect h => Returns (on_connect h b)
  | CallOnDisconnect h => Returns (on_disconnect h b)
  | CallOnError h => Returns (on_error h b)
  | CallUseIndependentContext v => Returns (use_independent_context v b)
  | CallOnMultiConnect h => Returns (on_multi_connect h b)
  | CallOnMultiData h => Returns (on_multi_data h b)
  | CallOnMultiDisconnect h => Returns (on_multi_disconnect h b)
  | CallEnablePortRetry enable max_retries retry_interval_ms =>
      Returns (enable_port_retry enable max_retries retry_interval_ms b)
  | CallMaxClients max => max_clients max b
  | CallSingleClient => Returns (single_client b)
  | CallMultiClient max => multi_client max b
  | CallUnlimitedClients => Returns (unlimited_clients b)
  end.

Definition run (calls : list Call) (b : TcpServerBuilder)
  : TcpServerBuilder :=
  fold_left (fun b c => match call c b with
                        | Returns b' => b'
                        | Throws _ => b
                        end) calls b.

(** The limit a call leaves in the builder: the four members that set
    the client limit, when they return. *)
Definition limit_set_by (c : Call) : option N :=
  match c with
  | CallMaxClients max | CallMultiClient max =>
      if (max <? 2)%N then None else Some max
  | CallSingleClient => Some 1%N
  | CallUnlimitedClients => Some 0%N
  | _ => None
  end.

(** The limit of the last call of a run that has set one. *)
Definition limit_after (calls : list Call) : option N :=
  last (omap limit_set_by calls).

Section Build.
Context {C : Type} `{!Wrapper.Channel C}.

(** Two members this file calls are defined in sources that are not
    here, and are taken as they come: [get_full_message] of
    [common::ValidationException], and [wrapper::TcpServer::auto_start],
    which the wrapper declares next to [auto_manage]. *)
Variable get_full_message : exn -> string.
Variable server_auto_start : bool -> Wrapper.method C.

Definition TcpServerBuilder_new (port : N) : outcome TcpServerBuilder :=
  match InputValidator.validate_port port with
  | Returns _ =>
      Returns {|
        port_ := port; auto_start_ := false; auto_manage_ := false;
        use_independent_context_ := false; enable_port_retry_ := false;
        max_port_retries_ := 3;
        port_retry_interval_ms_ := DEFAULT_RETRY_INTERVAL_MS / 2;
        max_clients_ := SIZE_MAX; client_limit_set_ := false;
        on_data_ := None; on_connect_ := None; on_disconnect_ := None;
        on_error_ := None; on_multi_connect_ := None;
        on_multi_data_ := None; on_multi_disconnect_ := None |}
  | Throws (ValidationException _ _ _ as e) =>
      Throws (BuilderException
                ("Invalid TCP server parameters: " ++ get_full_message e)
                "TcpServerBuilder" "constructor")
  | Throws e => Throws e
  end.

Definition when (b : bool) (m : Wrapper.method C) : Wrapper.method C :=
  if b then m else Wrapper.skip.

(** The part of [build] that follows the construction of the server.
    The debug log lines are left out. *)
Definition configure (b : TcpServerBuilder) : Wrapper.method C :=
  let seq_ := Wrapper.seq_ in
  seq_ (when (client_limit_set_ b)
          (if (max_clients_ b =? 0)%N then Wrapper.set_unlimited_clients
           else Wrapper.set_client_limit (max_clients_ b)))
 (seq_ (when (auto_start_ b) (server_auto_start true))
 (seq_ (when (auto_manage_ b) (Wrapper.auto_manage true))
 (seq_ (when (Wrapper.callable (on_data_ b))
          (Wrapper.on_data (on_data_ b)))
 (seq_ (when (Wrapper.callable (on_connect_ b))
          (Wrapper.on_connect (on_connect_ b)))
 (seq_ (when (Wrapper.callable (on_disconnect_ b))
          (Wrapper.on_disconnect (on_disconnect_ b)))
 (seq_ (when (Wrapper.callable (on_error_ b))
          (Wrapper.on_error (on_error_ b)))
 (seq_ (when (Wrapper.callable (on_multi_connect_ b))
          (Wrapper.on_multi_connect (on_multi_connect_ b)))
 (seq_ (when (Wrapper.callable (on_multi_data_ b))
          (Wrapper.on_multi_data (on_multi_data_ b)))
 (seq_ (when (Wrapper.callable (on_multi_disconnect_ b))
          (Wrapper.on_multi_disconnect (on_multi_disconnect_ b)))
       (when (enable_port_retry_ b)
          (Wrapper.enable_port_retry_ true (max_port_retries_ b)
             (port_retry_interval_ms_ b)))))))))))).

Definition build (b : TcpServerBuilder)
  : outcome (Wrapper.TcpServer C) * list Wrapper.Event :=
  if negb (client_limit_set_ b) then
    (Throws (RuntimeError
       ("Client limit must be set before building server. " ++
        "Use single_client(), multi_client(n), or unlimited_clients()")),
     [])
  else
    let context :=
      if use_independent_context_ b then Wrapper.CreateIndependentContext
      else Wrapper.EnsureIoContextRunning in
    let '(server, t) := configure b (Wrapper.TcpServer_new (port_ b)) in
    (Returns server,
     context :: Wrapper.ServerConstruct (port_ b) :: t).

End Build.

End Builder.

(** ** common::ErrorHandler *)

Module ErrorHandler.

(** Modelled from the spec: [ErrorLevel], [ErrorCategory], [ErrorInfo] and
    [ErrorStats] are declared in [error_handler.hpp], which is not among
    the sources.  The specification lists the levels as Info, Warning,
    Error, Critical and the categories as Connection, Communication,
    Configuration, Memory, System, Unknown; the enumerators are numbered
    in that order, and [<] on levels compares these numbers. *)
Inductive ErrorLevel : Type := INFO | WARNING | ERROR | CRITICAL.

(** Modelled from the spec: the categories of the absent header, in the
    order of the specification. *)
Inductive ErrorCategory : Type :=
| CONNECTION | COMMUNICATION | CONFIGURATION | MEMORY | SYSTEM | UNKNOWN.

(** [static_cast<int>(level)] and [static_cast<int>(category)] *)
Definition level_int (l : ErrorLevel) : nat :=
  match l with INFO => 0 | WARNING => 1 | ERROR => 2 | CRITICAL => 3 end.

Definition category_int (c : ErrorCategory) : nat :=
  match c with
  | CONNECTION => 0 | COMMUNICATION => 1 | CONFIGURATION => 2
  | MEMORY => 3 | SYSTEM => 4 | UNKNOWN => 5
  end.

Definition level_lt (a b : ErrorLevel) : bool :=
  (level_int a <? level_int b)%nat.

(** Modelled from the spec: [ErrorInfo] of the absent header, with the
    fields the specification lists.  A time point is its count of ticks
    since the epoch; the value initialised [time_point{}] is 0. *)
Record ErrorInfo : Type := {
  level : ErrorLevel;
  category : ErrorCategory;
  component : string;
  operation : string;
  message : string;
  error_code : option Z;
  retryable : bool;
  timestamp : Z
}.

(** Modelled from the spec: [ErrorStats] of the absent header, with the
    members that [update_stats] assigns; the specification calls them the
    aggregate counts.  The counters are taken to be [size_t]. *)
Record ErrorStats : Type := {
  total_errors : N;
  errors_by_level : list N;
  errors_by_category : list N;
  retryable_errors : N;
  first_error : Z;
  last_error : Z
}.

(** [x++] on a [size_t] *)
Definition incr (x : N) : N := ((x + 1) mod 2 ^ 64)%N.

(** Modelled from the spec: [ErrorStats::reset] is part of the absent
    header; the statistics go back to zero counts and epoch times. *)
Definition ErrorStats_reset : ErrorStats := {|
  total_errors := 0; errors_by_level := [0; 0; 0; 0]%N;
  errors_by_category := [0; 0; 0; 0; 0; 0]%N; retryable_errors := 0;
  first_error := 0; last_error := 0
|}.

(** Modelled from the spec: [MAX_RECENT_ERRORS] is a constant of the
    absent header; the specification gives the global ring a capacity of
    1 000. *)
Definition MAX_RECENT_ERRORS : nat := 1000.

Definition MAX_COMPONENT_ERRORS : nat := 100.

(** What one subscriber does when it is called: it returns, or it throws
    a [std::exception] with the given [what()], or it throws something
    else. *)
Inductive CallbackResult : Type :=
| CallbackReturns
| CallbackThrows (what : string)
| CallbackThrowsOther.

Definition ErrorCallback : Type := ErrorInfo -> CallbackResult.

(** The events of a call: the subscriber at a position of [callbacks_] is
    invoked, or a line goes to the standard error stream. *)
Inductive Event : Type :=
| Invoke (position : nat) (error : ErrorInfo)
| Stderr (line : string).

(** The members that the member functions read and write; the mutexes are
    left out. *)
Record ErrorHandler : Type := {
  enabled_ : bool;
  min_level_ : ErrorLevel;
  stats_ : ErrorStats;
  recent_errors_ : list ErrorInfo;
  errors_by_component_ : gmap string (list ErrorInfo);
  callbacks_ : list ErrorCallback
}.

Definition set_enabled_ (v : bool) (h : ErrorHandler) : ErrorHandler :=
  Build_ErrorHandler v (min_level_ h) (stats_ h) (recent_errors_ h)
    (errors_by_component_ h) (callbacks_ h).

Definition set_min_level_ (v : ErrorLevel) (h : ErrorHandler)
  : ErrorHandler :=
  Build_ErrorHandler (enabled_ h) v (stats_ h) (recent_errors_ h)
    (errors_by_component_ h) (callbacks_ h).

Definition set_stats_ (v : ErrorStats) (h : ErrorHandler) : ErrorHandler :=
  Build_ErrorHandler (enabled_ h) (min_level_ h) v (recent_errors_ h)
    (errors_by_component_ h) (callbacks_ h).

Definition set_recent_errors_ (v : list ErrorInfo) (h : ErrorHandler)
  : ErrorHandler :=
  Build_ErrorHandler (enabled_ h) (min_level_ h) (stats_ h) v
    (errors_by_component_ h) (callbacks_ h).

Definition set_errors_by_component_ (v : gmap string (list ErrorInfo))
    (h : ErrorHandler) : ErrorHandler :=
  Build_ErrorHandler (enabled_ h) (min_level_ h) (stats_ h)
    (recent_errors_ h) v (callbacks_ h).

Definition set_callbacks_ (v : list ErrorCallback) (h : ErrorHandler)
  : ErrorHandler :=
  Build_ErrorHandler (enabled_ h) (min_level_ h) (stats_ h)
    (recent_errors_ h) (errors_by_component_ h) v.

(** The handler as constructed: nothing recorded, nobody subscribed.  The
    initial values of [enabled_] and [min_level_] are in the absent
    header. *)
Definition ErrorHandler_new (enabled : bool) (min_level : ErrorLevel)
  : ErrorHandler := {|
  enabled_ := enabled; min_level_ := min_level; stats_ := ErrorStats_reset;
  recent_errors_ := []; errors_by_component_ := ∅; callbacks_ := []
|}.

(** [v.erase(v.begin(), v.begin() + (v.size() - max))] when
    [v.size() > max]. *)
Definition keep_last {A} (max : nat) (v : list A) : list A :=
  if (max <? length v)%nat then drop (length v - max) v else v.

Definition update_stats (error : ErrorInfo) (st : ErrorStats) : ErrorStats :=
  {| total_errors := incr (total_errors st);
     errors_by_level :=
       alter incr (level_int (level error)) (errors_by_level st);
     errors_by_category :=
       alter incr (category_int (category error)) (errors_by_category st);
     retryable_errors :=
       if retryable error then incr (retryable_errors st)
       else retryable_errors st;
     first_error :=
       if (first_error st =? 0)%Z then timestamp error else first_error st;
     last_error := timestamp error |}.

Definition add_to_recent_errors (error : ErrorInfo) (v : list ErrorInfo)
  : list ErrorInfo :=
  keep_last MAX_RECENT_ERRORS (v ++ [error])%list.

(** [m[key]]: the entry, default constructed when it is missing. *)
Definition at_key (m : gmap string (list ErrorInfo)) (key : string)
  : list ErrorInfo := default [] (m !! key).

Definition add_to_component_errors (error : ErrorInfo)
    (m : gmap string (list ErrorInfo)) : gmap string (list ErrorInfo) :=
  let m := <[component error := (at_key m (component error) ++ [error])%list]> m in
  let component_errors := at_key m (component error) in
  <[component error := keep_last MAX_COMPONENT_ERRORS component_errors]> m.

Definition newline : string := String "010" EmptyString.

Fixpoint notify_from (position : nat) (callbacks : list ErrorCallback)
    (error : ErrorInfo) : list Event :=
  match callbacks with
  | [] => []
  | callback :: rest =>
      (Invoke position error ::
       match callback error with
       | CallbackReturns => []
       | CallbackThrows what =>
           [Stderr ("Error in error callback: " ++ what ++ newline)]
       | CallbackThrowsOther =>
           [Stderr ("Unknown error in error callback" ++ newline)]
       end ++ notify_from (S position) rest error)%list
  end.

Definition notify_callbacks (error : ErrorInfo) (h : ErrorHandler)
  : list Event := notify_from 0 (callbacks_ h) error.

(** The subscribers a trace has invoked, with what they were given. *)
Definition invocations (t : list Event) : list (nat * ErrorInfo) :=
  omap (fun ev => match ev with
                  | Invoke position error => Some (position, error)
                  | Stderr _ => None
                  end) t.

Definition report_error (error : ErrorInfo) (h : ErrorHandler)
  : ErrorHandler * list Event :=
  if negb (enabled_ h) then (h, [])
  else if level_lt (level error) (min_level_ h) then (h, [])
  else
    let h := set_stats_ (update_stats error (stats_ h)) h in
    let h := set_recent_errors_
               (add_to_recent_errors error (recent_errors_ h)) h in
    let h := set_errors_by_component_
               (add_to_component_errors error (errors_by_component_ h)) h in
    (h, notify_callbacks error h).

Definition register_callback (callback : ErrorCallback) (h : ErrorHandler)
  : ErrorHandler := set_callbacks_ (callbacks_ h ++ [callback])%list h.

Definition clear_callbacks (h : ErrorHandler) : ErrorHandler :=
  set_callbacks_ [] h.

Definition set_min_error_level := set_min_level_.
Definition get_min_error_level := min_level_.
Definition set_enabled := set_enabled_.
Definition is_enabled := enabled_.
Definition get_error_stats := stats_.

Definition reset_stats (h : ErrorHandler) : ErrorHandler :=
  set_stats_ ErrorStats_reset h.

Definition get_errors_by_component (component : string) (h : ErrorHandler)
  : list ErrorInfo :=
  match errors_by_component_ h !! component with
  | Some errors => errors
  | None => []
  end.

Definition get_recent_errors (count : nat) (h : ErrorHandler)
  : list ErrorInfo :=
  let start_index :=
    if (count <? length (recent_errors_ h))%nat
    then length (recent_errors_ h) - count else 0 in
  drop start_index (recent_errors_ h).

Definition has_errors (component : string) (h : ErrorHandler) : bool :=
  match errors_by_component_ h !! component with
  | Some errors => negb (Nat.eqb (length errors) 0)
  | None => false
  end.

Definition level_eqb (a b : ErrorLevel) : bool :=
  Nat.eqb (level_int a) (level_int b).

(** [std::count_if] over the errors of the component. *)
Definition get_error_count (component : string) (level : ErrorLevel)
    (h : ErrorHandler) : N :=
  match errors_by_component_ h !! component with
  | None => 0%N
  | Some errors =>
      N.of_nat (length (List.filter (fun e => level_eqb (ErrorHandler.level e) level)
                          errors))
  end.

(** The calls a client of the handler can make, and a run of them. *)
Inductive Call : Type :=
| ReportError (error : ErrorInfo)
| RegisterCallback (callback : ErrorCallback)
| ClearCallbacks
| SetMinErrorLevel (level : ErrorLevel)
| SetEnabled (enabled : bool)
| ResetStats.

Definition call (c : Call) (h : ErrorHandler) : ErrorHandler :=
  match c with
  | ReportError error => fst (report_error error h)
  | RegisterCallback callback => register_callback callback h
  | ClearCallbacks => clear_callbacks h
  | SetMinErrorLevel level => set_min_error_level level h
  | SetEnabled enabled => set_enabled enabled h
  | ResetStats => reset_stats h
  end.

Definition run (calls : list Call) (h : ErrorHandler) : ErrorHandler :=
  fold_left (fun h c => call c h) calls h.

(** The gate of [report_error]: the handler is enabled and the level of
    the error is not below the minimum. *)
Definition records (e : ErrorInfo) (h : ErrorHandler) : bool :=
  enabled_ h && negb (level_lt (level e) (min_level_ h)).

(** The errors a run has recorded, oldest first: those reported while the
    handler was enabled, with a level not below the minimum of the
    moment. *)
Fixpoint recorded (calls : list Call) (h : ErrorHandler) : list ErrorInfo :=
  match calls with
  | [] => []
  | c :: rest =>
      match c with
      | ReportError error =>
          if records error h
          then error :: recorded rest (call c h)
          else recorded rest (call c h)
      | _ => recorded rest (call c h)
      end
  end.

(** The errors that the statistics have counted: those recorded since the
    last [reset_stats] of the run, oldest first. *)
Fixpoint counted_from (acc : list ErrorInfo) (calls : list Call)
    (h : ErrorHandler) : list ErrorInfo :=
  match calls with
  | [] => acc
  | c :: rest =>
      match c with
      | ReportError error =>
          counted_from (if records error h then acc ++ [error] else acc)%list
            rest (call c h)
      | ResetStats => counted_from [] rest (call c h)
      | _ => counted_from acc rest (call c h)
      end
  end.

Definition counted (calls : list Call) (h : ErrorHandler) : list ErrorInfo :=
  counted_from [] calls h.

(** A counter that has been incremented [n] times from 0. *)
Definition wrapped (n : nat) : N := (N.of_nat n mod 2 ^ 64)%N.

Definition category_eqb (a b : ErrorCategory) : bool :=
  Nat.eqb (category_int a) (category_int b).

(** The statistics are those of a list of errors: the counters hold the
    numbers of its errors, in all, of each level, of each category and
    retryable; [last_error] is the time of its last error and
    [first_error] that of its first error whose time is not the epoch. *)
Definition counts (st : ErrorStats) (log : list ErrorInfo) : Prop :=
  total_errors st = wrapped (length log)
  /\ retryable_errors st = wrapped (length (List.filter retryable log))
  /\ last_error st = default 0%Z (timestamp <$> last log)
  /\ first_error st
     = default 0%Z (head (List.filter (fun t => negb (t =? 0)%Z)
                            (map timestamp log)))
  /\ (forall l, errors_by_level st !! level_int l
                = Some (wrapped (length (List.filter
                          (fun e => level_eqb (level e) l) log))))
  /\ (forall c, errors_by_category st !! category_int c
                = Some (wrapped (length (List.filter
                          (fun e => category_eqb (category e) c) log)))).

End ErrorHandler.

(** ** Text that the properties speak of *)

Module Text.

(** The parts with the delimiter between them. *)
Fixpoint join (delim : ascii) (parts : list string) : string :=
  match parts with
  | [] => EmptyString
  | [part] => part
  | part :: rest => part ++ String delim (join delim rest)
  end.

(** Four numbers printed in decimal with dots between them. *)
Definition dotted_quad (a b c d : N) : string :=
  join "." [to_string a; to_string b; to_string c; to_string d].

(** The ten digits, and the strings of a given number of digits. *)
Definition digit_chars : list ascii :=
  ["0"; "1"; "2"; "3"; "4"; "5"; "6"; "7"; "8"; "9"]%char.

Fixpoint digit_strings (n : nat) : list string :=
  match n with
  | O => [EmptyString]
  | S m => c ← digit_chars; s ← digit_strings m; [String c s]
  end.

(** A string without the delimiter. *)
Definition has_no (d : ascii) (s : string) : bool :=
  InputValidator.all_chars (fun c => negb (Ascii.eqb c d)) s.

(** A group of an IPv6 address: 1 to 4 hexadecimal digits. *)
Definition hex_group (g : string) : bool :=
  (1 <=? String.length g)%nat && (String.length g <=? 4)%nat
  && InputValidator.all_chars CType.isxdigit g.

(** The characters of hosts: alphanumerics, dot, hyphen and colon. *)
Definition host_char (c : ascii) : bool :=
  CType.isalnum c || Ascii.eqb c "." || Ascii.eqb c "-" || Ascii.eqb c ":".

End Text.

(** ** The rules in the words of the specification

    These definitions follow the text of the specification, not the code;
    the theorems compare the two. *)

Module Stated.
Import CType InputValidator.

(** The parts of a string between the dots: one more part than there are
    dots. *)
Fixpoint split (delim : ascii) (s : string) : list string :=
  match s with
  | EmptyString => [EmptyString]
  | String c rest =>
      if Ascii.eqb c delim then EmptyString :: split delim rest
      else match split delim rest with
           | part :: parts => String c part :: parts
           | [] => [String c EmptyString]
           end
  end.

(** The parts without the last one when that one is empty: what the loop
    over [std::getline] sees of them. *)
Fixpoint without_last_empty (parts : list string) : list string :=
  match parts with
  | [] => []
  | part :: rest =>
      match part, rest with
      | EmptyString, [] => []
      | _, _ => part :: without_last_empty rest
      end
  end.

(** A label: 1 to 63 characters, alphanumerics and hyphens, no hyphen at
    either end. *)
Definition rfc1123_label (label : string) : bool :=
  (1 <=? size label)%N && (size label <=? 63)%N
  && all_chars (fun c => isalnum c || Ascii.eqb c "-") label
  && negb (Ascii.eqb (front label) "-")
  && negb (Ascii.eqb (back label) "-").

(** A hostname: at most 253 characters, every dot-separated label a
    label as above. *)
Definition rfc1123_hostname (s : string) : bool :=
  (size s <=? 253)%N && forallb rfc1123_label (split "." s).

(** The decimal value of a string of digits. *)
Fixpoint decimal (acc : Z) (s : string) : Z :=
  match s with
  | EmptyString => acc
  | String c rest => decimal (10 * acc + digit_value c) rest
  end.

(** A path that begins with [/] and holds only alphanumerics, [/], [_]
    and [-]. *)
Definition unix_path (d : string) : bool :=
  Ascii.eqb (front d) "/"
  && all_chars (fun c => isalnum c || Ascii.eqb c "/" || Ascii.eqb c "_"
                         || Ascii.eqb c "-") d.

(** ["COM"] followed by a port number from 1 to 255. *)
Definition com_port (d : string) : bool :=
  let number := substr_from 3 d in
  String.eqb (substr_to 3 d) "COM"
  && negb (empty number) && all_chars isdigit number
  && (1 <=? decimal 0 number)%Z && (decimal 0 number <=? 255)%Z.

(** The reserved device names of Windows that the validator lists. *)
Definition reserved_name (d : string) : bool :=
  bool_decide (d ∈ ["NUL"; "CON"; "PRN"; "AUX"; "LPT1"; "LPT2"; "LPT3"]).

Definition device_path (d : string) : bool :=
  (size d <=? 256)%N && (unix_path d || com_port d || reserved_name d).

(** The calls that the message of [build] names as setting the client
    limit. *)
Definition names_client_limit (c : Builder.Call) : bool :=
  match c with
  | Builder.CallSingleClient | Builder.CallMultiClient _
  | Builder.CallUnlimitedClients => true
  | _ => false
  end.

End Stated.

(** ** A channel that records

    The wrapper is defined over any channel.  This one keeps what it is
    told, so that the wrapper can be run on concrete servers. *)

Module Recorder.

Record Chan : Type := {
  config : option Wrapper.TcpServerConfig;
  running : bool;
  connected : bool;
  written : list (list Byte.byte);
  limit : option N;
  clients : list N
}.

Definition fresh (config : option Wrapper.TcpServerConfig) : Chan :=
  {| config := config; running := false; connected := false;
     written := []; limit := None; clients := [] |}.

#[global] Instance channel : Wrapper.Channel Chan := {|
  Wrapper.create cfg := fresh (Some cfg);
  Wrapper.ch_start c :=
    Build_Chan (config c) true (connected c) (written c) (limit c)
      (clients c);
  Wrapper.ch_is_connected := connected;
  Wrapper.ch_async_write_copy data c :=
    Build_Chan (config c) (running c) (connected c)
      (written c ++ [data])%list (limit c) (clients c);
  Wrapper.ch_on_bytes c := c;
  Wrapper.ch_on_state c := c;
  Wrapper.is_transport_server _ := true;
  Wrapper.ts_set_client_limit n c :=
    Build_Chan (config c) (running c) (connected c) (written c) (Some n)
      (clients c);
  Wrapper.ts_set_unlimited_clients c :=
    Build_Chan (config c) (running c) (connected c) (written c) None
      (clients c);
  Wrapper.ts_get_client_count c := N.of_nat (length (clients c));
  Wrapper.ts_get_connected_clients := clients;
  Wrapper.ts_broadcast _ c := c;
  Wrapper.ts_send_to_client _ _ c := c;
  Wrapper.ts_on_multi_connect c := c;
  Wrapper.ts_on_multi_data c := c;
  Wrapper.ts_on_multi_disconnect c := c
|}.

(** A channel with one peer connected. *)
Definition online : Chan :=
  {| config := None; running := true; connected := true; written := [];
     limit := None; clients := [0%N] |}.

(** [wrapper::TcpServer::auto_start] taken to store its flag. *)
Definition auto_start (start : bool) : Wrapper.method Chan :=
  Wrapper.assign (Wrapper.set_auto_start_ start).

Definition get_full_message (e : exn) : string :=
  match e with
  | ValidationException message _ _ => message
  | _ => ""
  end.

End Recorder.

(** * Properties *)

(** ** The wrapper *)

Section WrapperProperties.
Import Wrapper.
Context {C : Type} `{!Channel C}.

(** C4. A server that is not connected drops what it is given to send:
    the call changes nothing in the server, writes nothing to the channel
    and invokes no callback. *)
Theorem send_not_connected (s : TcpServer C) (data : string) :
  is_connected s = false -> send data s = (s, []).
Proof.
  intros Hoff. unfold send. rewrite Hoff. reflexivity.
Qed.

(** C7. [send_line] is [send] of the line followed by one newline; on a
    connected server the bytes written are those of the line and then the
    byte 10. *)
Theorem send_line_is_send (s : TcpServer C) (line : string) :
  send_line line s = send (line ++ String "010" EmptyString) s
  /\ (is_connected s = true ->
      snd (send_line line s)
      = [ChannelWrite (Common.string_to_uint8 line ++ [Byte.x0a])%list]).
Proof.
  split; [reflexivity|].
  intros Hon. unfold send_line, send. rewrite Hon.
  unfold is_connected in Hon.
  destruct (channel_ s) as [c|]; [|discriminate]. simpl.
  do 2 f_equal. unfold Common.string_to_uint8.
  induction line as [|a line IH]; [reflexivity|].
  unfold list_byte_of_string in *. simpl. now rewrite IH.
Qed.

(** C8. [stop] on a server that was not started, or that has no channel,
    returns at once: the server is unchanged and the call has no event,
    so no callback. *)
Theorem stop_not_started (s : TcpServer C) :
  started_ s = false \/ channel_ s = None -> stop s = (s, []).
Proof.
  unfold stop. intros [H|H]; rewrite H; [reflexivity|].
  now destruct (started_ s).
Qed.

Lemma on_transport_no_channel (f : C -> C) (s : TcpServer C) :
  channel_ s = None -> on_transport f s = (s, []).
Proof. intros H. unfold on_transport. now rewrite H. Qed.

Lemma call_no_channel (c : Call) (s : TcpServer C) :
  channel_ s = None -> channel_ (fst (call c s)) = None.
Proof.
  intros H.
  destruct c; simpl;
    unfold stop, send_line, send, is_connected, handle_bytes, broadcast,
      send_to_client, on_multi_connect, on_multi_data, on_multi_disconnect,
      set_client_limit, set_unlimited_clients, seq_, assign, on_transport;
    simpl; rewrite ?H; simpl; auto.
  - now destruct (started_ s).
  - now destruct (on_data_ s).
  - destruct state; simpl; auto.
Qed.

Lemma run_no_channel (calls : list Call) (s : TcpServer C) :
  channel_ s = None -> channel_ (fst (run calls s)) = None.
Proof.
  revert s. induction calls as [|c calls IH]; intros s H; simpl; [exact H|].
  unfold seq_. pose proof (call_no_channel c s H) as Hc.
  destruct (call c s) as [s1 t1]. simpl in Hc.
  specialize (IH s1 Hc). destruct (run calls s1) as [s2 t2]. exact IH.
Qed.

Lemma queries_no_channel (s : TcpServer C) :
  channel_ s = None ->
  get_client_count s = 0%N /\ get_connected_clients s = []
  /\ is_connected s = false.
Proof.
  intros H. unfold get_client_count, get_connected_clients, is_connected.
  now rewrite H.
Qed.

(** [start] is what gives such a server its channel. *)
Lemma start_creates_channel (port : N) :
  channel_ (fst (start (TcpServer_new (C := C) port))) <> None.
Proof. discriminate. Qed.

(** C10. A server constructed from a port has no channel until [start]
    creates it: after any calls other than [start], the client count is
    0, the list of connected clients is empty and the server is not
    connected. *)
Theorem queries_before_start (port : N) (calls : list Call) :
  let s := fst (run calls (TcpServer_new (C := C) port)) in
  get_client_count s = 0%N
  /\ get_connected_clients s = []
  /\ is_connected s = false.
Proof.
  intros s. apply queries_no_channel, run_no_channel. reflexivity.
Qed.

End WrapperProperties.

(** Witnesses on the recording channel. *)

Lemma send_not_connected_witness :
  let s := fst (Wrapper.start (Wrapper.TcpServer_new (C := Recorder.Chan) 8080)) in
  Wrapper.is_connected s = false /\ Wrapper.send "hello" s = (s, []).
Proof.
  split; [reflexivity|]. apply send_not_connected. reflexivity.
Defined.

Lemma send_line_is_send_witness :
  let s := Wrapper.TcpServer_of_channel Recorder.online in
  Wrapper.is_connected s = true
  /\ snd (Wrapper.send_line "hi" s)
     = [Wrapper.ChannelWrite [Byte.x68; Byte.x69; Byte.x0a]].
Proof.
  split; [reflexivity|].
  apply (send_line_is_send (Wrapper.TcpServer_of_channel Recorder.online)
           "hi").
  reflexivity.
Defined.

Lemma stop_not_started_witness :
  let s := Wrapper.TcpServer_of_channel Recorder.online in
  Wrapper.started_ s = false /\ Wrapper.stop s = (s, []).
Proof.
  split; [reflexivity|]. apply stop_not_started. left. reflexivity.
Defined.

(** ** The builder *)

Section BuilderProperties.
Import Builder.

(** C3. [max_clients] and [multi_client] throw [std::invalid_argument]
    for 0 and for 1, before anything is built; from 2 on they return the
    builder with the argument as its limit.  [single_client] records the
    limit 1 and [unlimited_clients] records 0, which stands for no
    limit. *)
Theorem bounded_limit_from_two (b : TcpServerBuilder) (n : N) :
  ((n = 0 \/ n = 1)%N ->
     exists what, max_clients n b = Throws (InvalidArgument what)
                  /\ multi_client n b = Throws (InvalidArgument what))
  /\ ((2 <= n)%N ->
      exists b', max_clients n b = Returns b'
                 /\ multi_client n b = Returns b'
                 /\ max_clients_ b' = n /\ client_limit_set_ b' = true)
  /\ (max_clients_ (single_client b) = 1%N
      /\ client_limit_set_ (single_client b) = true)
  /\ (max_clients_ (unlimited_clients b) = 0%N
      /\ client_limit_set_ (unlimited_clients b) = true).
Proof.
  split; [|split; [|split; split; reflexivity]].
  - intros [-> | ->]; eexists; split; reflexivity.
  - intros Hn. unfold max_clients, multi_client.
    destruct (N.eqb_spec n 0); [lia|].
    destruct (N.eqb_spec n 1); [lia|].
    eexists. repeat split.
Qed.

Lemma call_limit (c : Call) (b : TcpServerBuilder) :
  match call c b with
  | Returns b' =>
      match limit_set_by c with
      | Some n => client_limit_set_ b' = true /\ max_clients_ b' = n
      | None => client_limit_set_ b' = client_limit_set_ b
                /\ max_clients_ b' = max_clients_ b
      end
  | Throws _ => limit_set_by c = None
  end.
Proof.
  destruct c; simpl; auto; unfold max_clients, multi_client;
    destruct (N.eqb_spec max 0) as [->|]; auto;
    destruct (N.eqb_spec max 1) as [->|]; auto;
    destruct (N.ltb_spec max 2); simpl; auto; lia.
Qed.

Lemma limit_after_cons (c : Call) (calls : list Call) :
  limit_after (c :: calls)
  = match limit_after calls with
    | Some n => Some n
    | None => limit_set_by c
    end.
Proof.
  unfold limit_after, omap. simpl.
  generalize (list_omap _ _ limit_set_by calls). intros l.
  destruct (limit_set_by c) as [n|]; simpl.
  - rewrite last_cons. now destruct (last l).
  - now destruct (last l).
Qed.

Lemma run_cons (c : Call) (calls : list Call) (b : TcpServerBuilder) :
  run (c :: calls) b
  = run calls (match call c b with Returns b' => b' | Throws _ => b end).
Proof. reflexivity. Qed.

(** After a run the builder holds the limit of the last call that set
    one; a run without such a call leaves the limit as it was. *)
Lemma run_limit (calls : list Call) (b : TcpServerBuilder) :
  match limit_after calls with
  | Some n => client_limit_set_ (run calls b) = true
              /\ max_clients_ (run calls b) = n
  | None => client_limit_set_ (run calls b) = client_limit_set_ b
            /\ max_clients_ (run calls b) = max_clients_ b
  end.
Proof.
  revert b. induction calls as [|c calls IH]; intros b; [now split|].
  rewrite limit_after_cons, run_cons.
  pose proof (call_limit c b) as Hc.
  destruct (call c b) as [b'|e].
  - specialize (IH b'). destruct (limit_after calls) as [n|]; [exact IH|].
    destruct (limit_set_by c) as [n|]; destruct IH as [-> ->]; exact Hc.
  - rewrite Hc. specialize (IH b).
    destruct (limit_after calls) as [n|]; exact IH.
Qed.

Context {C : Type} `{!Wrapper.Channel C}.
Variable get_full_message : exn -> string.
Variable server_auto_start : bool -> Wrapper.method C.

Lemma keeps_seq (m1 m2 : Wrapper.method C) :
  Wrapper.keeps_limit m1 -> Wrapper.keeps_limit m2 -> Wrapper.keeps_limit (Wrapper.seq_ m1 m2).
Proof.
  intros H1 H2 s. unfold Wrapper.seq_.
  specialize (H1 s). destruct (m1 s) as [s1 t1].
  specialize (H2 s1). destruct (m2 s1) as [s2 t2].
  destruct H1 as [A1 B1], H2 as [A2 B2]. simpl in *.
  split; congruence.
Qed.

Lemma keeps_when (v : bool) (m : Wrapper.method C) :
  Wrapper.keeps_limit m -> Wrapper.keeps_limit (when v m).
Proof. intros Hm. destruct v; [exact Hm|]. intros s. now split. Qed.

Lemma keeps_on_transport (f : C -> C) :
  Wrapper.keeps_limit (Wrapper.on_transport f).
Proof.
  intros s. unfold Wrapper.on_transport.
  destruct (Wrapper.channel_ s) as [c|]; [|now split].
  destruct (Wrapper.is_transport_server c); now split.
Qed.

Lemma keeps_assign (f : Wrapper.TcpServer C -> Wrapper.TcpServer C) :
  (forall s, Wrapper.carries s (f s)) -> Wrapper.keeps_limit (Wrapper.assign f).
Proof. intros Hf s. apply Hf. Qed.

Hypothesis auto_start_keeps_limit :
  forall start, Wrapper.keeps_limit (server_auto_start start).

Lemma seq_first (m1 m2 : Wrapper.method C) (s : Wrapper.TcpServer C) :
  Wrapper.keeps_limit m2 -> Wrapper.carries (fst (m1 s)) (fst (Wrapper.seq_ m1 m2 s)).
Proof.
  intros H2. unfold Wrapper.seq_. destruct (m1 s) as [s1 t1].
  specialize (H2 s1). destruct (m2 s1) as [s2 t2]. exact H2.
Qed.

Lemma set_unlimited_clients_limit (s : Wrapper.TcpServer C) :
  let s' := fst (Wrapper.set_unlimited_clients s) in
  Wrapper.max_clients_ s' = 0%N
  /\ Wrapper.client_limit_enabled_ s' = false.
Proof.
  unfold Wrapper.set_unlimited_clients.
  destruct (seq_first
              (Wrapper.assign (fun s => Wrapper.set_max_clients_ 0
                 (Wrapper.set_client_limit_enabled_ false s)))
              (Wrapper.on_transport Wrapper.ts_set_unlimited_clients) s
              (keeps_on_transport _)) as [A B].
  simpl. rewrite A, B. now split.
Qed.

Lemma set_client_limit_limit (n : N) (s : Wrapper.TcpServer C) :
  let s' := fst (Wrapper.set_client_limit n s) in
  Wrapper.max_clients_ s' = n
  /\ Wrapper.client_limit_enabled_ s' = true.
Proof.
  unfold Wrapper.set_client_limit.
  destruct (seq_first
              (Wrapper.assign (fun s => Wrapper.set_client_limit_enabled_
                 true (Wrapper.set_max_clients_ n s)))
              (Wrapper.on_transport (Wrapper.ts_set_client_limit n)) s
              (keeps_on_transport _)) as [A B].
  simpl. rewrite A, B. now split.
Qed.

Lemma configure_limit (b : TcpServerBuilder) (s : Wrapper.TcpServer C) :
  client_limit_set_ b = true ->
  let s' := fst (configure server_auto_start b s) in
  Wrapper.max_clients_ s' = max_clients_ b
  /\ Wrapper.client_limit_enabled_ s' = negb (max_clients_ b =? 0)%N.
Proof.
  intros Hset. unfold configure. cbv zeta. rewrite Hset.
  match goal with |- context [Wrapper.seq_ ?m1 ?m2 s] =>
    assert (Hrest : Wrapper.keeps_limit m2);
    [| destruct (seq_first m1 m2 s Hrest) as [A B]; rewrite A, B ]
  end.
  { repeat (apply keeps_seq || apply keeps_when);
      try apply auto_start_keeps_limit;
      try apply keeps_on_transport;
      try (apply keeps_assign; intros s0; now split). }
  unfold when.
  destruct (N.eqb_spec (max_clients_ b) 0) as [E|E].
  - rewrite E. apply set_unlimited_clients_limit.
  - apply set_client_limit_limit.
Qed.

(** C9, amended. [build] throws, before it has created a context or
    constructed a server, exactly when no call of [single_client],
    [multi_client], [max_clients] or [unlimited_clients] has returned on
    the builder; otherwise it returns a server that Wrapper.carries the limit of
    the last such call, 0 being no limit. *)
Theorem build_client_limit (port : N) (b0 : TcpServerBuilder)
    (calls : list Call) :
  TcpServerBuilder_new get_full_message port = Returns b0 ->
  match limit_after calls with
  | None =>
      exists what,
        build server_auto_start (run calls b0)
        = (Throws (RuntimeError what), [])
  | Some n =>
      exists server t,
        build server_auto_start (run calls b0) = (Returns server, t)
        /\ Wrapper.max_clients_ server = n
        /\ Wrapper.client_limit_enabled_ server = negb (n =? 0)%N
  end.
Proof.
  intros Hnew.
  assert (H0 : client_limit_set_ b0 = false).
  { unfold TcpServerBuilder_new in Hnew.
    destruct (InputValidator.validate_port port) as [|[]];
      try discriminate.
    now inversion Hnew. }
  pose proof (run_limit calls b0) as Hrun.
  destruct (limit_after calls) as [n|].
  - destruct Hrun as [Hset Hmax]. unfold build. rewrite Hset. simpl negb.
    pose proof (configure_limit (run calls b0)
                  (Wrapper.TcpServer_new (port_ (run calls b0))) Hset) as Hc.
    simpl in Hc.
    destruct (configure server_auto_start (run calls b0) _) as [server t].
    simpl in Hc. rewrite Hmax in Hc.
    eexists _, _. split; [reflexivity|]. exact Hc.
  - destruct Hrun as [Hset _]. unfold build. rewrite Hset, H0. simpl.
    eexists. reflexivity.
Qed.

End BuilderProperties.

Lemma bounded_limit_from_two_witness :
  exists b, Builder.TcpServerBuilder_new Recorder.get_full_message 8080
            = Returns b
  /\ (exists what, Builder.max_clients 1 b = Throws (InvalidArgument what)
                   /\ Builder.multi_client 1 b
                      = Throws (InvalidArgument what))
  /\ (exists b', Builder.max_clients 2 b = Returns b'
                 /\ Builder.multi_client 2 b = Returns b'
                 /\ Builder.max_clients_ b' = 2%N
                 /\ Builder.client_limit_set_ b' = true).
Proof.
  eexists. split; [reflexivity|].
  split.
  - apply (proj1 (bounded_limit_from_two _ 1%N)). right. reflexivity.
  - apply (proj1 (proj2 (bounded_limit_from_two _ 2%N))). reflexivity.
Defined.

Lemma build_client_limit_witness :
  exists b0, Builder.TcpServerBuilder_new Recorder.get_full_message 8080
             = Returns b0
  /\ exists server t,
       Builder.build Recorder.auto_start
         (Builder.run [Builder.CallAutoStart true; Builder.CallMultiClient 3;
                       Builder.CallMaxClients 1; Builder.CallOnData (Some 7)]
            b0)
       = (Returns server, t)
       /\ Wrapper.max_clients_ server = 3%N
       /\ Wrapper.client_limit_enabled_ server = true.
Proof.
  eexists. split; [reflexivity|].
  refine (build_client_limit Recorder.get_full_message Recorder.auto_start
            _ 8080%N _
            [Builder.CallAutoStart true; Builder.CallMultiClient 3;
             Builder.CallMaxClients 1; Builder.CallOnData (Some 7)] _).
  - intros start s. split; reflexivity.
  - reflexivity.
Defined.

(** C9 as stated fails: [max_clients] is none of the three members that the
    claim names, and after it alone [build] returns a server. *)
Lemma build_after_max_clients_only :
  exists b0, Builder.TcpServerBuilder_new Recorder.get_full_message 8080
             = Returns b0
  /\ existsb Stated.names_client_limit [Builder.CallMaxClients 5] = false
  /\ exists server t,
       Builder.build Recorder.auto_start
         (Builder.run [Builder.CallMaxClients 5] b0)
       = (Returns server, t)
       /\ Wrapper.max_clients_ server = 5%N.
Proof.
  eexists. split; [reflexivity|]. split; [reflexivity|].
  eexists _, _. split; reflexivity.
Qed.

(** ** The error handler *)

Section ErrorHandlerProperties.
Import ErrorHandler.

Lemma keep_last_drop {A} (n : nat) (v : list A) :
  keep_last n v = drop (length v - n) v.
Proof.
  unfold keep_last. destruct (Nat.ltb_spec n (length v)); [reflexivity|].
  now replace (length v - n) with 0 by lia.
Qed.

Lemma keep_last_length {A} (n : nat) (v : list A) :
  length (keep_last n v) <= n.
Proof. rewrite keep_last_drop, length_drop. lia. Qed.

(** Trimming after every push keeps what trimming once at the end
    keeps. *)
Lemma keep_last_snoc {A} (n : nat) (v : list A) (x : A) :
  keep_last n (keep_last n v ++ [x]) = keep_last n (v ++ [x]).
Proof.
  rewrite !keep_last_drop, !length_app, length_drop. simpl.
  destruct (Nat.le_gt_cases (length v) n) as [Hle|Hgt].
  - replace (length v - n) with 0 by lia. rewrite drop_0.
    f_equal. lia.
  - rewrite <- (drop_app_le v [x] (length v - n)) by lia.
    rewrite drop_drop. f_equal. lia.
Qed.

Lemma keep_last_snoc_last {A} (n : nat) (v : list A) (x : A) :
  0 < n -> last (keep_last n (v ++ [x])) = Some x.
Proof.
  intros Hn. rewrite keep_last_drop, length_app. simpl.
  rewrite drop_app_le by lia. apply last_snoc.
Qed.

Lemma incr_changes (x : N) : incr x <> x.
Proof.
  unfold incr. intros E.
  assert (H : (x < 2 ^ 64)%N)
    by (rewrite <- E; apply N.mod_lt; discriminate).
  destruct (N.eq_dec x (2 ^ 64 - 1)%N) as [->|Hne]; [discriminate|].
  rewrite N.mod_small in E by lia. lia.
Qed.

Lemma get_errors_by_component_at (c : string) (h : ErrorHandler) :
  get_errors_by_component c h = at_key (errors_by_component_ h) c.
Proof.
  unfold get_errors_by_component, at_key.
  now destruct (errors_by_component_ h !! c).
Qed.

Lemma add_to_component_errors_same (e : ErrorInfo)
    (m : gmap string (list ErrorInfo)) :
  at_key (add_to_component_errors e m) (component e)
  = keep_last MAX_COMPONENT_ERRORS (at_key m (component e) ++ [e]).
Proof.
  unfold add_to_component_errors, at_key.
  now rewrite !lookup_insert_eq.
Qed.

Lemma add_to_component_errors_other (e : ErrorInfo)
    (m : gmap string (list ErrorInfo)) (c : string) :
  c <> component e ->
  at_key (add_to_component_errors e m) c = at_key m c.
Proof.
  intros Hne. unfold add_to_component_errors, at_key.
  now rewrite !lookup_insert_ne by congruence.
Qed.

Lemma invocations_notify_from (k : nat) (callbacks : list ErrorCallback)
    (e : ErrorInfo) :
  invocations (notify_from k callbacks e)
  = map (fun i => (i, e)) (seq k (length callbacks)).
Proof.
  revert k. induction callbacks as [|cb rest IH]; intros k; [reflexivity|].
  simpl. unfold invocations in *.
  destruct (cb e); simpl; now rewrite IH.
Qed.

Lemma records_level (e : ErrorInfo) (h : ErrorHandler) :
  records e h = true
  <-> enabled_ h = true /\ level_int (min_level_ h) <= level_int (level e).
Proof.
  unfold records, level_lt. rewrite andb_true_iff, negb_true_iff.
  rewrite Nat.ltb_ge. reflexivity.
Qed.

(** C5. When the handler is enabled and the level of the error is not
    below the minimum, [report_error] counts the error in the statistics,
    pushes it on the ring of recent errors and on the ring of its
    component, both trimmed to their capacity from the front, and invokes
    every subscriber once, in the order of subscription; the handler has
    changed.  Otherwise the handler is as it was and no subscriber is
    invoked. *)
Theorem report_error_gate (e : ErrorInfo) (h : ErrorHandler) :
  let h' := fst (report_error e h) in
  let t := snd (report_error e h) in
  if records e h then
    total_errors (stats_ h') = incr (total_errors (stats_ h))
    /\ errors_by_level (stats_ h') !! level_int (level e)
       = incr <$> errors_by_level (stats_ h) !! level_int (level e)
    /\ errors_by_category (stats_ h') !! category_int (category e)
       = incr <$> errors_by_category (stats_ h) !! category_int (category e)
    /\ retryable_errors (stats_ h')
       = (if retryable e then incr (retryable_errors (stats_ h))
          else retryable_errors (stats_ h))
    /\ last_error (stats_ h') = timestamp e
    /\ recent_errors_ h'
       = keep_last MAX_RECENT_ERRORS (recent_errors_ h ++ [e])
    /\ last (recent_errors_ h') = Some e
    /\ get_errors_by_component (component e) h'
       = keep_last MAX_COMPONENT_ERRORS
           (get_errors_by_component (component e) h ++ [e])
    /\ last (get_errors_by_component (component e) h') = Some e
    /\ (forall c, c <> component e ->
          get_errors_by_component c h' = get_errors_by_component c h)
    /\ invocations t
       = map (fun i => (i, e)) (seq 0 (length (callbacks_ h)))
    /\ h' <> h
  else h' = h /\ t = [].
Proof.
  unfold report_error, records.
  destruct (enabled_ h); simpl; [|now split].
  destruct (level_lt (level e) (min_level_ h)); simpl; [now split|].
  repeat split.
  - apply list_lookup_alter_eq.
  - apply list_lookup_alter_eq.
  - apply keep_last_snoc_last. unfold MAX_RECENT_ERRORS. lia.
  - rewrite !get_errors_by_component_at. apply add_to_component_errors_same.
  - rewrite get_errors_by_component_at. simpl.
    rewrite add_to_component_errors_same.
    apply keep_last_snoc_last. unfold MAX_COMPONENT_ERRORS. lia.
  - intros c Hne. rewrite !get_errors_by_component_at.
    now apply add_to_component_errors_other.
  - apply invocations_notify_from.
  - intros E. apply (f_equal (fun x => total_errors (stats_ x))) in E.
    simpl in E. now apply incr_changes in E.
Qed.

Lemma call_component (c : Call) (h : ErrorHandler) (name : string) :
  get_errors_by_component name (call c h)
  = match c with
    | ReportError e =>
        if records e h && bool_decide (component e = name)
        then keep_last MAX_COMPONENT_ERRORS
               (get_errors_by_component name h ++ [e])
        else get_errors_by_component name h
    | _ => get_errors_by_component name h
    end.
Proof.
  destruct c; try reflexivity.
  simpl. unfold report_error, records.
  destruct (enabled_ h); simpl; [|reflexivity].
  destruct (level_lt (level error) (min_level_ h)); simpl; [reflexivity|].
  rewrite !get_errors_by_component_at. simpl.
  case_bool_decide as Hc.
  - subst name. apply add_to_component_errors_same.
  - apply add_to_component_errors_other. congruence.
Qed.

Lemma run_component (calls : list Call) (h : ErrorHandler)
    (log : list ErrorInfo) (name : string) :
  get_errors_by_component name h
  = keep_last MAX_COMPONENT_ERRORS
      (filter (fun e => component e = name) log) ->
  get_errors_by_component name (run calls h)
  = keep_last MAX_COMPONENT_ERRORS
      (filter (fun e => component e = name) (log ++ recorded calls h)%list).
Proof.
  revert h log. induction calls as [|c calls IH]; intros h log Hinv.
  - simpl. now rewrite app_nil_r.
  - change (run (c :: calls) h) with (run calls (call c h)).
    cbn [recorded].
    pose proof (call_component c h name) as Hc.
    destruct c as [e| | | | |];
      try (apply IH; rewrite Hc; exact Hinv).
    destruct (records e h) eqn:Hrec; cbn [andb] in Hc.
    + replace (log ++ e :: recorded calls (call (ReportError e) h))%list
        with ((log ++ [e]) ++ recorded calls (call (ReportError e) h))%list
        by (now rewrite <- app_assoc).
      apply IH. rewrite Hc, filter_app, filter_cons, filter_nil.
      case_bool_decide as Hn.
      * rewrite decide_True by exact Hn.
        rewrite Hinv. apply keep_last_snoc.
      * rewrite decide_False by exact Hn.
        now rewrite app_nil_r.
    + apply IH. rewrite Hc. exact Hinv.
Qed.

(** C6. After any run of calls on a handler, the errors kept for a
    component are the last 100 of the errors recorded for that component,
    in the order of their report; so there are at most 100 of them, and
    the oldest are the ones that have gone. *)
Theorem component_errors_most_recent (enabled : bool)
    (min_level : ErrorLevel) (calls : list Call) (name : string) :
  let h0 := ErrorHandler_new enabled min_level in
  let log := filter (fun e => component e = name) (recorded calls h0) in
  get_errors_by_component name (run calls h0)
  = drop (length log - 100) log
  /\ length (get_errors_by_component name (run calls h0)) <= 100.
Proof.
  intros h0 log.
  assert (E : get_errors_by_component name (run calls h0)
              = keep_last MAX_COMPONENT_ERRORS log).
  { apply (run_component calls h0 [] name). reflexivity. }
  rewrite E. split.
  - apply keep_last_drop.
  - apply keep_last_length.
Qed.

(** A run of 101 reports for one component, numbered by their time: the
    first one has gone, the other 100 are kept in order. *)
Example component_ring_evicts_oldest :
  let report i := ReportError {|
    level := ERROR; category := CONNECTION; component := "tcp_client";
    operation := "connect"; message := "refused"; error_code := None;
    retryable := true; timestamp := Z.of_nat i |} in
  let h := run (map report (seq 0 101)) (ErrorHandler_new true INFO) in
  map timestamp (get_errors_by_component "tcp_client" h)
  = map Z.of_nat (seq 1 100)
  /\ total_errors (stats_ h) = 101%N
  /\ get_errors_by_component "serial" h = [].
Proof. repeat split; vm_compute; reflexivity. Qed.

End ErrorHandlerProperties.

(** ** The validators *)

Section ValidatorProperties.
Import CType StrTo Stream InputValidator.

(** The lines of the loop are those of the successive calls of
    [getline]. *)
Lemma getlines_getline (d : ascii) (s : string) :
  getlines d s
  = match getline d s with
    | None => []
    | Some (line, rest) => line :: getlines d rest
    end.
Proof.
  induction s as [|c rest IH]; [reflexivity|].
  simpl. destruct (Ascii.eqb c d); [reflexivity|].
  rewrite IH. destruct (getline d rest) as [[line rest']|]; reflexivity.
Qed.

Lemma split_not_nil (d : ascii) (s : string) : Stated.split d s <> [].
Proof.
  destruct s as [|c rest]; simpl; [discriminate|].
  destruct (Ascii.eqb c d); [discriminate|].
  destruct (Stated.split d rest); discriminate.
Qed.

Lemma getlines_split (d : ascii) (s : string) :
  getlines d s = Stated.without_last_empty (Stated.split d s).
Proof.
  induction s as [|c rest IH]; [reflexivity|].
  simpl. pose proof (split_not_nil d rest) as Hne.
  destruct (Ascii.eqb c d).
  - rewrite IH. destruct (Stated.split d rest); [contradiction|reflexivity].
  - rewrite IH. destruct (Stated.split d rest) as [|p ps]; [contradiction|].
    destruct ps as [|q qs]; [destruct p; reflexivity|].
    simpl. destruct p; reflexivity.
Qed.

Lemma without_last_empty_cons (p : string) (ps : list string) :
  p <> "" \/ ps <> [] ->
  Stated.without_last_empty (p :: ps) = p :: Stated.without_last_empty ps.
Proof.
  intros [H|H]; destruct p, ps; try reflexivity; contradiction.
Qed.

Lemma without_last_empty_incl (parts : list string) (l : string) :
  l ∈ Stated.without_last_empty parts -> l ∈ parts.
Proof.
  induction parts as [|p ps IH]; [easy|].
  destruct (decide (p = "")) as [->|Hp]; [destruct ps as [|q qs]|].
  - simpl. intros H. now apply elem_of_nil in H.
  - rewrite without_last_empty_cons by (right; discriminate).
    rewrite !elem_of_cons. intros [->|H]; [now left|]. right.
    apply elem_of_cons. apply IH, H.
  - rewrite without_last_empty_cons by (left; exact Hp).
    rewrite !elem_of_cons. intros [->|H]; [now left|]. right. apply IH, H.
Qed.

Lemma all_chars_forall (p : ascii -> bool) (s : string) :
  all_chars p s = true -> forall c, c ∈ list_ascii_of_string s -> p c = true.
Proof.
  induction s as [|a s IH]; simpl; intros H c Hc.
  - now apply elem_of_nil in Hc.
  - apply andb_true_iff in H as [Ha Hs].
    apply elem_of_cons in Hc as [->|Hc]; [exact Ha|]. now apply IH.
Qed.

(** What the first part and the last part of a string say of its two
    ends. *)
Lemma split_front (d : ascii) (s : string) :
  exists p ps, Stated.split d s = p :: ps /\ (p <> "" -> front p = front s).
Proof.
  destruct s as [|c rest]; simpl; [now eexists _, _|].
  destruct (Ascii.eqb c d); [now eexists _, _|].
  destruct (Stated.split d rest); eexists _, _; split; reflexivity || easy.
Qed.

Lemma split_singleton_empty (d : ascii) (s : string) :
  Stated.split d s = [""] -> s = "".
Proof.
  destruct s as [|c rest]; simpl; [reflexivity|].
  pose proof (split_not_nil d rest) as Hne.
  destruct (Ascii.eqb c d).
  - intros H. inversion H as [H']. contradiction.
  - destruct (Stated.split d rest); discriminate.
Qed.

Lemma back_cons (c : ascii) (s : string) :
  s <> "" -> back (String c s) = back s.
Proof. destruct s; [contradiction|reflexivity]. Qed.

Lemma split_back (d : ascii) (s : string) (p : string) :
  last (Stated.split d s) = Some p -> p <> "" -> back p = back s.
Proof.
  revert p. induction s as [|c rest IH]; intros p; cbn [Stated.split].
  - intros [= <-]. contradiction.
  - pose proof (split_not_nil d rest) as Hne.
    pose proof (split_singleton_empty d rest) as Hone.
    destruct (Ascii.eqb c d).
    + destruct (Stated.split d rest) as [|q qs] eqn:E; [contradiction|].
      rewrite last_cons_cons. intros Hl Hp.
      rewrite back_cons; [now apply IH|].
      intros ->. simpl in E. injection E as <- <-. simpl in Hl.
      injection Hl as <-. contradiction.
    + destruct (Stated.split d rest) as [|q qs] eqn:E; [contradiction|].
      destruct qs as [|r rs].
      * simpl. intros [= <-] _.
        destruct (decide (q = "")) as [->|Hq].
        { rewrite (Hone eq_refl). reflexivity. }
        rewrite back_cons by exact Hq.
        rewrite (IH q eq_refl Hq).
        symmetry. apply back_cons. intros ->. simpl in E.
        injection E as <-. contradiction.
      * rewrite last_cons_cons. intros Hl Hp.
        rewrite back_cons; [apply IH; [|exact Hp]|].
        { now rewrite last_cons_cons. }
        intros ->. discriminate.
Qed.

Lemma empty_size (s : string) : empty s = true <-> size s = 0%N.
Proof. destruct s; simpl; split; intros H; try easy; unfold size in H; simpl in H; lia. Qed.

Lemma empty_false_size (s : string) : empty s = false <-> (1 <= size s)%N.
Proof.
  destruct s; unfold size; simpl; split; intros H; try easy; lia.
Qed.

Lemma rfc1123_label_valid (l : string) :
  Stated.rfc1123_label l = true -> valid_label l = true.
Proof.
  unfold Stated.rfc1123_label, valid_label.
  rewrite !andb_true_iff, !N.leb_le.
  intros [[[[H1 H63] Hc] _] _].
  apply empty_false_size in H1. rewrite H1. simpl.
  destruct (N.ltb_spec 63 (size l)); [lia|exact Hc].
Qed.

Lemma rfc1123_label_ends (l : string) :
  Stated.rfc1123_label l = true ->
  l <> "" /\ front l <> "-"%char /\ back l <> "-"%char.
Proof.
  unfold Stated.rfc1123_label.
  rewrite !andb_true_iff, !negb_true_iff, !N.leb_le.
  intros [[[[H1 _] _] Hf] Hb]. repeat split.
  - intros ->. unfold size in H1. simpl in H1. lia.
  - now apply Ascii.eqb_neq.
  - now apply Ascii.eqb_neq.
Qed.

Lemma bind_returns {A B} (c : outcome A) (k : A -> outcome B) (a : A) :
  c = Returns a -> c ≫= k = k a.
Proof. now intros ->. Qed.

(** X6. [validate_host] accepts every name that follows the hostname rule:
    at most 253 characters, labels of 1 to 63 alphanumerics and hyphens
    between the dots, no hyphen at either end of a label. *)
Lemma validate_host_accepts_rfc1123 (s : string) :
  Stated.rfc1123_hostname s = true -> validate_host s = Returns ().
Proof.
  unfold Stated.rfc1123_hostname.
  intros [Hsize Hall]%andb_true_iff. apply N.leb_le in Hsize.
  rewrite List.forallb_forall in Hall.
  assert (Hlabel : forall l, l ∈ Stated.split "." s ->
                             Stated.rfc1123_label l = true).
  { intros l Hl. apply Hall. now apply list_elem_of_In. }
  destruct (split_front "." s) as (p & ps & Hsplit & Hfront).
  assert (Hp : Stated.rfc1123_label p = true).
  { apply Hlabel. rewrite Hsplit. now left. }
  apply rfc1123_label_ends in Hp as (Hp & Hpf & _).
  assert (Hs : empty s = false).
  { destruct s; [|reflexivity]. simpl in Hsplit. congruence. }
  unfold validate_host, validate_non_empty_string, validate_string_length.
  rewrite Hs. unfold MAX_HOSTNAME_LENGTH.
  destruct (N.ltb_spec 253 (size s)); [lia|]. simpl.
  destruct (is_valid_ipv4 s); [reflexivity|].
  destruct (is_valid_ipv6 s); [reflexivity|].
  assert (Hhost : is_valid_hostname s = true); [|now rewrite Hhost].
  unfold is_valid_hostname, MAX_HOSTNAME_LENGTH. rewrite Hs.
  destruct (N.ltb_spec 253 (size s)); [lia|]. simpl.
  rewrite <- (Hfront Hp).
  destruct (Ascii.eqb_spec (front p) "-"); [contradiction|]. simpl.
  destruct (last (Stated.split "." s)) as [q|] eqn:Hlast.
  2:{ rewrite Hsplit in Hlast. apply last_None in Hlast. discriminate. }
  assert (Hq : Stated.rfc1123_label q = true).
  { apply Hlabel. apply last_Some in Hlast as [pre ->].
    apply elem_of_app. right. now left. }
  apply rfc1123_label_ends in Hq as (Hq & _ & Hqb).
  rewrite <- (split_back "." s q Hlast Hq).
  destruct (Ascii.eqb_spec (back q) "-"); [contradiction|].
  apply List.forallb_forall. intros l Hl.
  apply rfc1123_label_valid, Hlabel.
  apply without_last_empty_incl. rewrite <- getlines_split.
  now apply list_elem_of_In.
Qed.

(** X7. A name that [validate_host] accepts, and that is no IPv4 or IPv6
    address, has 1 to 253 characters and no hyphen at its two ends, and
    every label that the loop over [std::getline] reads has 1 to 63
    characters, alphanumerics and hyphens. *)
Lemma validate_host_hostname_sound (s : string) :
  validate_host s = Returns () ->
  is_valid_ipv4 s = false -> is_valid_ipv6 s = false ->
  (1 <= size s <= 253)%N
  /\ front s <> "-"%char /\ back s <> "-"%char
  /\ forall l, l ∈ getlines "." s ->
       (1 <= size l <= 63)%N
       /\ all_chars (fun c => isalnum c || Ascii.eqb c "-") l = true.
Proof.
  unfold validate_host, validate_non_empty_string, validate_string_length.
  intros H H4 H6. rewrite H4, H6 in H.
  destruct (empty s) eqn:Hs; [discriminate|].
  unfold MAX_HOSTNAME_LENGTH in H.
  destruct (N.ltb_spec 253 (size s)); [discriminate|]. simpl in H.
  destruct (is_valid_hostname s) eqn:Hh; [|discriminate].
  unfold is_valid_hostname in Hh. rewrite Hs in Hh. simpl in Hh.
  destruct (MAX_HOSTNAME_LENGTH <? size s)%N; [discriminate|].
  destruct (Ascii.eqb_spec (front s) "-"); [discriminate|].
  destruct (Ascii.eqb_spec (back s) "-"); [discriminate|]. simpl in Hh.
  rewrite List.forallb_forall in Hh.
  apply empty_false_size in Hs.
  split; [lia|]. do 2 (split; [assumption|]).
  intros l Hl. specialize (Hh l (proj1 (list_elem_of_In _ _) Hl)).
  unfold valid_label in Hh. destruct (empty l) eqn:El; [discriminate|].
  apply empty_false_size in El.
  destruct (N.ltb_spec 63 (size l)); [discriminate|].
  split; [lia|exact Hh].
Qed.

Lemma isdigit_not_space (c : ascii) : isdigit c = true -> isspace c = false.
Proof.
  unfold isdigit, isspace, in_range.
  rewrite andb_true_iff, !N.leb_le. intros [Hlo Hhi].
  destruct (N.eqb_spec (code c) 32); [lia|]. simpl.
  destruct (N.leb_spec 9 (code c)); [|reflexivity].
  destruct (N.leb_spec (code c) 13); [lia|reflexivity].
Qed.

Lemma isdigit_not_sign (c : ascii) :
  isdigit c = true -> Ascii.eqb c "-" = false /\ Ascii.eqb c "+" = false.
Proof.
  intros H. split; apply Ascii.eqb_neq; intros ->; discriminate.
Qed.

Lemma digits_decimal (s : string) (acc : option Z) :
  all_chars isdigit s = true ->
  digits acc s
  = match s with
    | EmptyString => acc
    | _ => Some (Stated.decimal (default 0%Z acc) s)
    end.
Proof.
  revert acc. induction s as [|c rest IH]; intros acc; [reflexivity|].
  simpl. intros [Hc Hrest]%andb_true_iff. rewrite Hc, (IH _ Hrest).
  now destruct rest.
Qed.

(** On a string of digits [std::stoi] gives its decimal value. *)
Lemma stoi_digits (s : string) :
  all_chars isdigit s = true -> s <> "" ->
  (StrTo.INT_MIN <= Stated.decimal 0 s <= StrTo.INT_MAX)%Z ->
  stoi s = Returns (Stated.decimal 0 s).
Proof.
  intros Hall Hne Hrange. unfold stoi, convert, parse.
  destruct s as [|c rest]; [contradiction|].
  pose proof Hall as Hall'. simpl in Hall'.
  apply andb_true_iff in Hall' as [Hc _].
  simpl skip_space. rewrite (isdigit_not_space c Hc).
  unfold signed_digits.
  destruct (isdigit_not_sign c Hc) as [-> ->].
  rewrite (digits_decimal _ None Hall). simpl default.
  destruct (Z.leb_spec StrTo.INT_MIN (Stated.decimal 0 (String c rest)));
    [|lia].
  destruct (Z.leb_spec (Stated.decimal 0 (String c rest)) StrTo.INT_MAX);
    [reflexivity|lia].
Qed.

Lemma com_prefix (d : string) :
  String.eqb (substr_to 3 d) "COM" = true ->
  d = String "C" (String "O" (String "M" (substr_from 3 d))).
Proof.
  intros H. apply String.eqb_eq in H.
  destruct d as [|a [|b [|c rest]]]; simpl in H; try discriminate.
  simpl. now injection H as -> -> ->.
Qed.

(** X8. [validate_device_path] accepts every path of at most 256
    characters that begins with [/] and holds only alphanumerics, [/], [_]
    and [-], or is ["COM"] followed by the digits of a number from 1 to
    255, or is one of NUL, CON, PRN, AUX, LPT1, LPT2, LPT3. *)
Lemma validate_device_path_accepts_stated (d : string) :
  Stated.device_path d = true -> validate_device_path d = Returns ().
Proof.
  unfold Stated.device_path. intros [Hsize Hkind]%andb_true_iff.
  apply N.leb_le in Hsize.
  assert (Hvalid : is_valid_device_path d = true).
  { unfold is_valid_device_path.
    destruct (Stated.unix_path d) eqn:Hunix.
    - unfold Stated.unix_path in Hunix.
      apply andb_true_iff in Hunix as [Hfront Hchars].
      destruct d; [discriminate|]. simpl empty. cbv iota.
      now rewrite Hfront.
    - destruct (Stated.com_port d) eqn:Hcom.
      + unfold Stated.com_port in Hcom.
        rewrite !andb_true_iff, negb_true_iff, !Z.leb_le in Hcom.
        destruct Hcom as [[[[Hpre Hne] Hall] H1] H255].
        pose proof (com_prefix d Hpre) as Hd.
        remember (substr_from 3 d) as number eqn:Hnum.
        clear Hnum Hunix Hkind Hsize Hpre. subst d.
        destruct number as [|x number]; [discriminate|].
        cbn [empty front].
        replace (Ascii.eqb "C" "/") with false by reflexivity.
        replace (4 <=? size _)%N with true
          by (symmetry; apply N.leb_le; unfold size; simpl; lia).
        cbn [substr_to substr_from]. rewrite String.eqb_refl. simpl andb.
        rewrite stoi_digits; [| exact Hall | discriminate
                              | unfold StrTo.INT_MIN, StrTo.INT_MAX; lia].
        apply andb_true_iff. now rewrite !Z.leb_le.
      + simpl in Hkind. unfold Stated.reserved_name in Hkind.
        apply bool_decide_eq_true in Hkind.
        repeat (apply elem_of_cons in Hkind as [->|Hkind]; [reflexivity|]).
        now apply elem_of_nil in Hkind. }
  unfold validate_device_path, validate_non_empty_string,
    validate_string_length, MAX_DEVICE_PATH_LENGTH.
  rewrite Hvalid.
  destruct d; [discriminate|]. simpl empty. cbv iota.
  destruct (N.ltb_spec 256 (size (String a d))); [lia|]. reflexivity.
Qed.

(** X9. A path that [validate_device_path] accepts has 1 to 256
    characters and is a Unix path as above, or one of the reserved names,
    or begins with ["COM"] followed by text on which [std::stoi] returns a
    number from 1 to 255. *)
Lemma validate_device_path_sound (d : string) :
  validate_device_path d = Returns () ->
  (1 <= size d <= 256)%N
  /\ (Stated.unix_path d = true
      \/ Stated.reserved_name d = true
      \/ (String.eqb (substr_to 3 d) "COM" = true
          /\ exists port, stoi (substr_from 3 d) = Returns port
                          /\ (1 <= port <= 255)%Z)).
Proof.
  intros H.
  unfold validate_device_path, validate_non_empty_string,
    validate_string_length, MAX_DEVICE_PATH_LENGTH in H.
  destruct (empty d) eqn:Hd; [discriminate|].
  destruct (N.ltb_spec 256 (size d)); [discriminate|]. simpl in H.
  destruct (is_valid_device_path d) eqn:Hvalid; [|discriminate]. clear H.
  apply empty_false_size in Hd. split; [lia|].
  unfold is_valid_device_path in Hvalid.
  destruct (empty d); [discriminate|].
  destruct (Ascii.eqb (front d) "/") eqn:Hfront.
  { left. unfold Stated.unix_path. now rewrite Hfront, Hvalid. }
  destruct ((4 <=? size d)%N && String.eqb (substr_to 3 d) "COM") eqn:Hcom.
  { right. right. apply andb_true_iff in Hcom as [_ Hpre].
    split; [exact Hpre|].
    destruct (stoi (substr_from 3 d)) as [port|]; [|discriminate].
    exists port. split; [reflexivity|].
    apply andb_true_iff in Hvalid. rewrite !Z.leb_le in Hvalid. lia. }
  right. left. unfold Stated.reserved_name. apply bool_decide_eq_true.
  repeat match type of Hvalid with
         | context [String.eqb d ?name] =>
             destruct (String.eqb_spec d name) as [->|_];
             [set_solver|simpl in Hvalid]
         end.
  discriminate.
Qed.

(** The last dot of a name may be followed by nothing. *)
Example validate_host_trailing_dot :
  validate_host "a." = Returns ()
  /\ getlines "." "a." = ["a"]
  /\ Stated.split "." "a." = ["a"; ""].
Proof. repeat split; vm_compute; reflexivity. Qed.

(** [std::stoi] skips blanks and takes a sign. *)
Example validate_device_path_blank_sign :
  validate_device_path "COM 7" = Returns ()
  /\ validate_device_path "COM+7" = Returns ()
  /\ thrown (validate_device_path "COM-7") = true
  /\ thrown (validate_device_path "COM256") = true
  /\ thrown (validate_device_path "COM0") = true.
Proof. repeat split; vm_compute; reflexivity. Qed.

(** C1 fails on the code. ["a.-b"] is neither an IPv4 nor an IPv6
    address, its second label starts with a hyphen, and [validate_host]
    returns: [is_valid_hostname] looks for a hyphen at the two ends of the
    whole name only. *)
Theorem validate_host_inner_hyphen :
  validate_host "a.-b" = Returns ()
  /\ is_valid_ipv4 "a.-b" = false
  /\ is_valid_ipv6 "a.-b" = false
  /\ Stated.split "." "a.-b" = ["a"; "-b"]
  /\ Stated.rfc1123_label "-b" = false
  /\ Stated.rfc1123_hostname "a.-b" = false.
Proof. repeat split; vm_compute; reflexivity. Qed.

(** C2 fails on the code. ["COM1abc"] is not ["COM"] followed by a port
    number, and [validate_device_path] returns: [std::stoi] reads the
    digits it finds and ignores what follows them. *)
Theorem validate_device_path_com_suffix :
  validate_device_path "COM1abc" = Returns ()
  /\ StrTo.stoi "1abc" = Returns 1%Z
  /\ Stated.com_port "COM1abc" = false
  /\ Stated.device_path "COM1abc" = false.
Proof. repeat split; vm_compute; reflexivity. Qed.

End ValidatorProperties.

(** ** More on the validators *)

Section ValidatorsMore.
Import CType StrTo Stream InputValidator.

(** Strings as they are joined and read back. *)

Lemma size_app (a b : string) :
  String.length (a ++ b) = String.length a + String.length b.
Proof. induction a as [|c a IH]; simpl; [reflexivity|]. now rewrite IH. Qed.

Lemma getlines_nil (d : ascii) (s : string) : getlines d s = [] -> s = "".
Proof.
  destruct s as [|c rest]; [reflexivity|]. simpl.
  destruct (Ascii.eqb c d); [discriminate|].
  destruct (getlines d rest); discriminate.
Qed.

Lemma join_cons (d : ascii) (x y : string) (l : list string) :
  Text.join d (x :: y :: l) = x ++ String d (Text.join d (y :: l)).
Proof. reflexivity. Qed.

Lemma join_cons_char (d c : ascii) (x : string) (l : list string) :
  Text.join d (String c x :: l) = String c (Text.join d (x :: l)).
Proof. destruct l; reflexivity. Qed.

(** What the loop over [getline] has read, joined again, is the input, but
    for one delimiter at its end. *)
Lemma join_getlines (d : ascii) (s : string) :
  s = Text.join d (getlines d s)
  \/ s = Text.join d (getlines d s) ++ String d "".
Proof.
  induction s as [|c rest IH]; [now left|].
  simpl. destruct (Ascii.eqb_spec c d) as [->|Hc].
  - destruct (getlines d rest) as [|x l] eqn:E.
    + apply getlines_nil in E. subst rest. now right.
    + rewrite join_cons. simpl.
      destruct IH as [IH|IH]; [left|right]; now rewrite IH at 1.
  - destruct (getlines d rest) as [|x l] eqn:E.
    + apply getlines_nil in E. subst rest. now left.
    + rewrite join_cons_char.
      destruct IH as [IH|IH]; [left|right]; now rewrite IH at 1.
Qed.

Lemma getlines_app_delim (d : ascii) (x rest : string) :
  Text.has_no d x = true ->
  getlines d (x ++ String d rest) = x :: getlines d rest.
Proof.
  unfold Text.has_no. induction x as [|c x IH]; simpl; intros H.
  - now rewrite Ascii.eqb_refl.
  - apply andb_true_iff in H as [Hc Hx]. apply negb_true_iff in Hc.
    rewrite Hc, (IH Hx). reflexivity.
Qed.

Lemma getlines_single (d : ascii) (x : string) :
  Text.has_no d x = true -> x <> "" -> getlines d x = [x].
Proof.
  unfold Text.has_no. induction x as [|c x IH]; simpl; intros H Hne; [easy|].
  apply andb_true_iff in H as [Hc Hx]. apply negb_true_iff in Hc.
  rewrite Hc. destruct x as [|c' x']; [reflexivity|].
  rewrite (IH Hx); [reflexivity|discriminate].
Qed.

(** One delimiter after the last line is not seen by the loop. *)
Lemma getlines_trailing (d : ascii) (s : string) :
  s <> "" -> back s <> d -> getlines d (s ++ String d "") = getlines d s.
Proof.
  induction s as [|c rest IH]; [easy|]. intros _ Hback.
  destruct rest as [|c' rest'].
  - simpl in *. destruct (Ascii.eqb_spec c d); [contradiction|].
    now rewrite Ascii.eqb_refl.
  - change (String c (String c' rest') ++ String d "")
      with (String c (String c' rest' ++ String d "")).
    cbn [getlines]. rewrite IH; [reflexivity|discriminate|exact Hback].
Qed.

Lemma isdigit_digit_chars (c : ascii) :
  isdigit c = true -> c ∈ Text.digit_chars.
Proof.
  destruct c as [[] [] [] [] [] [] [] []]; intros H;
    try discriminate H; unfold Text.digit_chars;
    repeat (first [ apply list_elem_of_here | apply list_elem_of_further ]).
Qed.

Lemma digit_strings_complete (s : string) :
  all_chars isdigit s = true ->
  s ∈ Text.digit_strings (String.length s).
Proof.
  induction s as [|c s IH]; intros H; [apply list_elem_of_here|].
  cbn [all_chars] in H. apply andb_true_iff in H as [Hc Hs].
  change (String.length (String c s)) with (S (String.length s)).
  change (Text.digit_strings (S (String.length s)))
    with (c ← Text.digit_chars;
          s ← Text.digit_strings (String.length s); [String c s]).
  apply list_elem_of_bind. exists c. split; [|now apply isdigit_digit_chars].
  apply list_elem_of_bind. exists s. split; [apply list_elem_of_here|].
  now apply IH.
Qed.

Lemma digit_value_range (c : ascii) :
  isdigit c = true -> (0 <= digit_value c <= 9)%Z.
Proof.
  unfold isdigit, in_range, digit_value.
  rewrite andb_true_iff, !N.leb_le. lia.
Qed.

Lemma decimal_lower (s : string) (acc : Z) :
  all_chars isdigit s = true -> (0 <= acc)%Z ->
  (acc * 10 ^ Z.of_nat (String.length s) <= Stated.decimal acc s)%Z.
Proof.
  revert acc. induction s as [|c s IH]; intros acc H Hacc.
  - simpl. lia.
  - simpl in H. apply andb_true_iff in H as [Hc Hs].
    pose proof (digit_value_range c Hc) as Hd.
    cbn [Stated.decimal String.length].
    specialize (IH (10 * acc + digit_value c)%Z Hs ltac:(lia)).
    rewrite Nat2Z.inj_succ, Z.pow_succ_r by lia.
    assert (0 < 10 ^ Z.of_nat (String.length s))%Z
      by (apply Z.pow_pos_nonneg; lia).
    nia.
Qed.

Lemma stoll_digits (s : string) :
  all_chars isdigit s = true -> s <> "" ->
  stoll s = if (Stated.decimal 0 s <=? LLONG_MAX)%Z
            then Returns (Stated.decimal 0 s)
            else Throws (OutOfRange "stoll").
Proof.
  intros Hall Hne. unfold stoll, convert, parse.
  destruct s as [|c rest]; [contradiction|].
  pose proof Hall as Hall'. simpl in Hall'.
  apply andb_true_iff in Hall' as [Hc _].
  simpl skip_space. rewrite (isdigit_not_space c Hc).
  unfold signed_digits.
  destruct (isdigit_not_sign c Hc) as [-> ->].
  rewrite (digits_decimal _ None Hall). simpl default.
  pose proof (decimal_lower (String c rest) 0 Hall ltac:(lia)) as Hlow.
  destruct (Z.leb_spec LLONG_MIN (Stated.decimal 0 (String c rest)));
    [reflexivity|]. unfold LLONG_MIN in *. lia.
Qed.

(** An octet has at most three digits. *)
Lemma valid_octet_digits (o : string) :
  valid_octet o = true ->
  all_chars isdigit o = true /\ 1 <= String.length o <= 3.
Proof.
  unfold valid_octet. destruct (empty o) eqn:He; [discriminate|].
  destruct ((1 <? size o)%N && Ascii.eqb (front o) "0") eqn:Hz;
    [discriminate|].
  destruct (all_chars isdigit o) eqn:Hall; [|discriminate]. simpl.
  assert (Hne : o <> "") by (intros ->; discriminate).
  rewrite (stoll_digits o Hall Hne).
  destruct (Z.leb_spec (Stated.decimal 0 o) LLONG_MAX); [|discriminate].
  rewrite negb_true_iff, orb_false_iff, !Z.ltb_ge. intros [_ H255].
  split; [reflexivity|].
  destruct o as [|c rest]; [contradiction|]. simpl. split; [lia|].
  destruct (le_gt_dec (String.length rest) 2) as [|Hlong]; [lia|].
  exfalso.
  simpl in Hall. apply andb_true_iff in Hall as [Hc Hrest].
  assert (Hsz : (1 <? size (String c rest))%N = true).
  { apply N.ltb_lt. unfold size. simpl. lia. }
  rewrite Hsz in Hz. simpl in Hz. apply Ascii.eqb_neq in Hz.
  assert (Hd : (1 <= digit_value c)%Z).
  { pose proof (digit_value_range c Hc) as Hr.
    destruct (Z.eq_dec (digit_value c) 0%Z) as [E|]; [|lia].
    exfalso. apply Hz. unfold digit_value in E.
    assert (Hcode : code c = 48%N) by lia.
    unfold code in Hcode. rewrite <- (ascii_N_embedding c), Hcode.
    reflexivity. }
  cbn [Stated.decimal] in H255.
  pose proof (decimal_lower rest (10 * 0 + digit_value c) Hrest ltac:(lia))
    as Hlow.
  assert ((10 ^ 3 <= 10 ^ Z.of_nat (String.length rest))%Z)
    by (apply Z.pow_le_mono_r; lia).
  nia.
Qed.

(** The octets are the numbers from 0 to 255 as [std::to_string] prints
    them. *)
Lemma octet_check :
  forallb (fun o => implb (valid_octet o)
                      (String.eqb (to_string (Z.to_N (Stated.decimal 0 o))) o
                       && (Stated.decimal 0 o <=? 255)%Z))
    (Text.digit_strings 1 ++ Text.digit_strings 2 ++ Text.digit_strings 3)
  = true.
Proof. vm_compute. reflexivity. Qed.

Lemma valid_octet_printed (o : string) :
  valid_octet o = true ->
  exists n, (n <= 255)%N /\ o = to_string n.
Proof.
  intros Hv. destruct (valid_octet_digits o Hv) as [Hall Hlen].
  pose proof (digit_strings_complete o Hall) as Hin.
  pose proof octet_check as Hchk. rewrite List.forallb_forall in Hchk.
  specialize (Hchk o). rewrite Hv in Hchk. simpl in Hchk.
  assert (Hmem : o ∈ (Text.digit_strings 1 ++ Text.digit_strings 2
                      ++ Text.digit_strings 3)%list).
  { rewrite !elem_of_app.
    destruct (String.length o) as [|[|[|[|k]]]]; try lia; auto. }
  apply list_elem_of_In, Hchk in Hmem.
  apply andb_true_iff in Hmem as [Heq Hle].
  apply String.eqb_eq in Heq. apply Z.leb_le in Hle.
  exists (Z.to_N (Stated.decimal 0 o)). split; [lia|now symmetry].
Qed.

Lemma printed_check :
  forallb (fun n => valid_octet (to_string n)
                    && Text.has_no "." (to_string n)
                    && negb (empty (to_string n)))
    (map N.of_nat (seq 0 256)) = true.
Proof. vm_compute. reflexivity. Qed.

Lemma string_app_cons (x : ascii) (a b : string) :
  String x a ++ b = String x (a ++ b).
Proof. reflexivity. Qed.

Lemma string_app_assoc (a b c : string) : (a ++ b) ++ c = a ++ (b ++ c).
Proof.
  induction a as [|x a IH]; [reflexivity|].
  rewrite !string_app_cons. f_equal. exact IH.
Qed.

Lemma string_app_nil_r (a : string) : a ++ "" = a.
Proof.
  induction a as [|x a IH]; [reflexivity|].
  rewrite string_app_cons. f_equal. exact IH.
Qed.

Lemma printed_octet (n : N) :
  (n <= 255)%N ->
  valid_octet (to_string n) = true
  /\ Text.has_no "." (to_string n) = true
  /\ to_string n <> "".
Proof.
  intros Hn. pose proof printed_check as H.
  rewrite List.forallb_forall in H. specialize (H n).
  assert (Hin : In n (map N.of_nat (seq 0 256))).
  { apply in_map_iff. exists (N.to_nat n). split; [lia|].
    apply in_seq. lia. }
  apply H in Hin. rewrite !andb_true_iff, negb_true_iff in Hin.
  destruct Hin as [[Hv Hd] He]. repeat split; try assumption.
  intros E. now rewrite E in He.
Qed.

Lemma getlines_dotted_quad (a b c d : N) (tail : string) :
  (a <= 255)%N -> (b <= 255)%N -> (c <= 255)%N -> (d <= 255)%N ->
  tail = "" \/ tail = "." ->
  getlines "." (Text.dotted_quad a b c d ++ tail)
  = [to_string a; to_string b; to_string c; to_string d].
Proof.
  intros Ha Hb Hc Hd Htail.
  destruct (printed_octet a Ha) as (_ & Na & _).
  destruct (printed_octet b Hb) as (_ & Nb & _).
  destruct (printed_octet c Hc) as (_ & Nc & _).
  destruct (printed_octet d Hd) as (_ & Nd & Ed).
  unfold Text.dotted_quad. cbn [Text.join].
  repeat (rewrite string_app_assoc || rewrite string_app_cons).
  rewrite (getlines_app_delim "." _ _ Na). f_equal.
  rewrite (getlines_app_delim "." _ _ Nb). f_equal.
  rewrite (getlines_app_delim "." _ _ Nc). f_equal.
  destruct Htail as [->| ->].
  - rewrite string_app_nil_r. now apply getlines_single.
  - now rewrite (getlines_app_delim "." _ _ Nd).
Qed.

(** X1. [is_valid_ipv4] accepts the dotted quads of numbers from 0 to 255 as
    [std::to_string] prints them, with or without one dot after the last
    number, and nothing else. *)
Theorem is_valid_ipv4_exact (s : string) :
  is_valid_ipv4 s = true
  <-> exists a b c d,
        (a <= 255 /\ b <= 255 /\ c <= 255 /\ d <= 255)%N
        /\ (s = Text.dotted_quad a b c d
            \/ s = Text.dotted_quad a b c d ++ ".").
Proof.
  split.
  - unfold is_valid_ipv4. intros H.
    destruct (Nat.eqb_spec (length (getlines "." s)) 4) as [Hlen|];
      [|discriminate]. simpl in H.
    destruct (getlines "." s) as [|o1 [|o2 [|o3 [|o4 [|o5 l]]]]] eqn:E;
      try discriminate Hlen.
    simpl in H. rewrite !andb_true_iff in H.
    destruct H as (H1 & H2 & H3 & H4 & _).
    apply valid_octet_printed in H1 as (a & Ha & ->).
    apply valid_octet_printed in H2 as (b & Hb & ->).
    apply valid_octet_printed in H3 as (c & Hc & ->).
    apply valid_octet_printed in H4 as (d & Hd & ->).
    exists a, b, c, d. split; [tauto|].
    pose proof (join_getlines "." s) as Hj. rewrite E in Hj. exact Hj.
  - intros (a & b & c & d & (Ha & Hb & Hc & Hd) & Hs).
    assert (E : getlines "." s
                = [to_string a; to_string b; to_string c; to_string d]).
    { destruct Hs as [-> | ->].
      - rewrite <- (getlines_dotted_quad a b c d "") by auto.
        now rewrite string_app_nil_r.
      - apply getlines_dotted_quad; auto. }
    unfold is_valid_ipv4. rewrite E. simpl.
    destruct (printed_octet a Ha) as (-> & _).
    destruct (printed_octet b Hb) as (-> & _).
    destruct (printed_octet c Hc) as (-> & _).
    destruct (printed_octet d Hd) as (-> & _). reflexivity.
Qed.

Lemma match_groups_unfold (n : nat) (s : string) :
  match_groups n s
  = ((1 <=? fst (hex_run s))%nat && (fst (hex_run s) <=? 4)%nat
     && match n, snd (hex_run s) with
        | O, r => empty r
        | S g, String c r' => Ascii.eqb c ":" && match_groups g r'
        | S _, EmptyString => false
        end).
Proof.
  destruct n; cbn [match_groups]; destruct (hex_run s) as [k r];
    cbn [fst snd];
    destruct ((1 <=? k)%nat && (k <=? 4)%nat); cbn [negb andb];
    try reflexivity.
  destruct r as [|c r']; [reflexivity|].
  destruct c as [[] [] [] [] [] [] [] []]; reflexivity.
Qed.

Lemma hex_run_app (g r : string) :
  all_chars isxdigit g = true ->
  r = "" \/ isxdigit (front r) = false ->
  hex_run (g ++ r) = (String.length g, r).
Proof.
  intros Hg Hr. induction g as [|c g IH].
  - simpl. destruct Hr as [->|Hr]; [reflexivity|].
    destruct r as [|c r]; [reflexivity|]. simpl in *. now rewrite Hr.
  - simpl in Hg. apply andb_true_iff in Hg as [Hc Hg].
    rewrite string_app_cons. simpl. rewrite Hc, (IH Hg). reflexivity.
Qed.

Lemma hex_run_split (s : string) :
  exists g, s = g ++ snd (hex_run s)
            /\ String.length g = fst (hex_run s)
            /\ all_chars isxdigit g = true.
Proof.
  induction s as [|c s (g & Hs & Hl & Hg)]; [now exists ""|].
  simpl. destruct (isxdigit c) eqn:Hc.
  - destruct (hex_run s) as [k r]. simpl in *.
    exists (String c g). repeat split.
    + rewrite string_app_cons. now f_equal.
    + simpl. now f_equal.
    + simpl. now rewrite Hc.
  - now exists "".
Qed.

Lemma match_groups_exact (n : nat) (s : string) :
  match_groups n s = true
  <-> exists groups,
        length groups = S n
        /\ Forall (fun g => Text.hex_group g = true) groups
        /\ s = Text.join ":" groups.
Proof.
  split.
  - revert s. induction n as [|n IH]; intros s;
      rewrite match_groups_unfold, !andb_true_iff;
      destruct (hex_run_split s) as (g & Hs & Hl & Hg);
      destruct (hex_run s) as [k r]; cbn [fst snd] in *; subst k.
    + intros [[H1 H4] Hr]. destruct r; [|discriminate].
      exists [g]. rewrite string_app_nil_r in Hs.
      repeat split; [|exact Hs]. constructor; [|constructor].
      unfold Text.hex_group. now rewrite H1, H4, Hg.
    + intros [[H1 H4] Hr]. destruct r as [|c r']; [discriminate|].
      apply andb_true_iff in Hr as [Hc Hrest].
      apply Ascii.eqb_eq in Hc. subst c.
      destruct (IH r' Hrest) as (groups & Hlen & Hall & ->).
      exists (g :: groups). split; [simpl; now rewrite Hlen|].
      split.
      * constructor; [|exact Hall].
        unfold Text.hex_group. now rewrite H1, H4, Hg.
      * destruct groups; [discriminate|]. exact Hs.
  - revert s. induction n as [|n IH]; intros s (groups & Hlen & Hall & ->).
    + destruct groups as [|g [|]]; try discriminate.
      apply Forall_cons in Hall as [Hgrp _].
      unfold Text.hex_group in Hgrp. rewrite !andb_true_iff in Hgrp.
      destruct Hgrp as [[H1 H4] Hg].
      rewrite match_groups_unfold. simpl Text.join.
      pose proof (hex_run_app g "" Hg (or_introl eq_refl)) as Hr.
      rewrite string_app_nil_r in Hr. rewrite Hr. cbn [fst snd empty].
      now rewrite H1, H4.
    + destruct groups as [|g [|g' gs]]; try discriminate.
      apply Forall_cons in Hall as [Hgrp Hall].
      unfold Text.hex_group in Hgrp. rewrite !andb_true_iff in Hgrp.
      destruct Hgrp as [[H1 H4] Hg].
      rewrite match_groups_unfold, join_cons.
      rewrite (hex_run_app g _ Hg) by now right. cbn [fst snd].
      rewrite H1, H4, Ascii.eqb_refl. cbn [andb].
      apply IH. exists (g' :: gs). repeat split; [|exact Hall].
      simpl in *. lia.
Qed.

(** X2. [is_valid_ipv6] accepts ["::"], ["::1"] and the addresses written in
    full, eight groups of 1 to 4 hexadecimal digits with colons between
    them, and nothing else: no other shortened form. *)
Theorem is_valid_ipv6_exact (s : string) :
  is_valid_ipv6 s = true
  <-> s = "::" \/ s = "::1"
      \/ exists groups,
           length groups = 8
           /\ Forall (fun g => Text.hex_group g = true) groups
           /\ s = Text.join ":" groups.
Proof.
  unfold is_valid_ipv6. rewrite !orb_true_iff, !String.eqb_eq.
  rewrite match_groups_exact. tauto.
Qed.

Lemma join_length (d : ascii) (parts : list string) (k : nat) :
  Forall (fun p => String.length p <= k) parts ->
  String.length (Text.join d parts) + 1 <= length parts * (k + 1) + 1.
Proof.
  induction parts as [|p [|q l] IH]; intros H.
  - simpl. lia.
  - apply Forall_cons in H as [Hp _]. simpl. lia.
  - apply Forall_cons in H as [Hp Hl]. specialize (IH Hl).
    rewrite join_cons, size_app.
    change (String.length (String d ?x)) with (S (String.length x)).
    cbn [String.length length] in *. lia.
Qed.

Lemma is_valid_ipv4_length (s : string) :
  is_valid_ipv4 s = true -> String.length s <= 17.
Proof.
  unfold is_valid_ipv4. intros H.
  destruct (Nat.eqb_spec (length (getlines "." s)) 4) as [Hlen|];
    [|discriminate]. simpl in H. rewrite List.forallb_forall in H.
  assert (Hall : Forall (fun p => String.length p <= 3) (getlines "." s)).
  { apply Forall_forall. intros o Ho. apply list_elem_of_In, H in Ho.
    apply valid_octet_digits in Ho. lia. }
  pose proof (join_length "." _ 3 Hall) as Hj. rewrite Hlen in Hj.
  destruct (join_getlines "." s) as [E|E]; rewrite E at 1;
    rewrite ?size_app; simpl; lia.
Qed.

Lemma is_valid_ipv6_length (s : string) :
  is_valid_ipv6 s = true -> String.length s <= 40.
Proof.
  unfold is_valid_ipv6. rewrite !orb_true_iff, !String.eqb_eq.
  rewrite match_groups_exact.
  intros [[(groups & Hlen & Hall & ->)| ->]| ->]; [|simpl; lia..].
  assert (Hk : Forall (fun p => String.length p <= 4) groups).
  { eapply Forall_impl; [exact Hall|]. intros g Hg. simpl in Hg.
    unfold Text.hex_group in Hg. rewrite !andb_true_iff in Hg.
    destruct Hg as [[_ H4] _]. now apply Nat.leb_le in H4. }
  pose proof (join_length ":" _ 4 Hk) as Hj. rewrite Hlen in Hj. lia.
Qed.

(** X3. An address that [validate_ipv4_address] or [validate_ipv6_address]
    accepts is a host that [validate_host] accepts. *)
Theorem validate_host_accepts_addresses (s : string) :
  validate_ipv4_address s = Returns ()
  \/ validate_ipv6_address s = Returns () ->
  validate_host s = Returns ().
Proof.
  unfold validate_ipv4_address, validate_ipv6_address, validate_host,
    validate_non_empty_string, validate_string_length, MAX_HOSTNAME_LENGTH.
  destruct (empty s); [intros [H|H]; discriminate H|]. simpl.
  intros [H|H].
  - destruct (is_valid_ipv4 s) eqn:E; [|discriminate].
    apply is_valid_ipv4_length in E.
    destruct (N.ltb_spec 253 (size s)) as [Hs|]; [unfold size in Hs; lia|].
    reflexivity.
  - destruct (is_valid_ipv6 s) eqn:E; [|discriminate].
    apply is_valid_ipv6_length in E.
    destruct (N.ltb_spec 253 (size s)) as [Hs|]; [unfold size in Hs; lia|].
    simpl. now destruct (is_valid_ipv4 s).
Qed.

Lemma front_app (s t : string) : s <> "" -> front (s ++ t) = front s.
Proof. destruct s; [contradiction|reflexivity]. Qed.

Lemma back_app_char (s : string) (c : ascii) : back (s ++ String c "") = c.
Proof.
  induction s as [|x s IH]; [reflexivity|].
  rewrite string_app_cons. rewrite back_cons; [exact IH|].
  destruct s; discriminate.
Qed.

(** X4. One dot after a name is not seen: an IPv4 address stays one, a
    hostname stays one. *)
Theorem trailing_dot_ignored (s : string) :
  s <> "" -> back s <> "."%char ->
  is_valid_ipv4 (s ++ ".") = is_valid_ipv4 s
  /\ ((size s < 253)%N -> is_valid_hostname s = true ->
      validate_host (s ++ ".") = Returns ()).
Proof.
  intros Hne Hback.
  pose proof (getlines_trailing "." s Hne Hback) as Hlines. split.
  - unfold is_valid_ipv4. now rewrite Hlines.
  - intros Hsize Hhost.
    assert (Hsz : size (s ++ ".") = (size s + 1)%N).
    { unfold size. rewrite size_app. simpl. lia. }
    assert (He : empty (s ++ ".") = false) by (now destruct s).
    assert (Hdot : is_valid_hostname (s ++ ".") = true).
    { unfold is_valid_hostname, MAX_HOSTNAME_LENGTH in *.
      rewrite He, Hsz, Hlines, (front_app s _ Hne), back_app_char.
      destruct (empty s); [discriminate|].
      destruct (N.ltb_spec 253 (size s)); [discriminate|].
      destruct (N.ltb_spec 253 (size s + 1)); [lia|]. simpl in *.
      destruct (Ascii.eqb (front s) "-"); [discriminate|]. simpl in *.
      destruct (Ascii.eqb (back s) "-"); [discriminate|]. exact Hhost. }
    unfold validate_host, validate_non_empty_string, validate_string_length,
      MAX_HOSTNAME_LENGTH.
    rewrite He, Hsz, Hdot.
    destruct (N.ltb_spec 253 (size s + 1)); [lia|]. simpl.
    destruct (is_valid_ipv4 (s ++ ".")); [reflexivity|].
    now destruct (is_valid_ipv6 (s ++ ".")).
Qed.

Lemma transform_empty (f : ascii -> ascii) (s : string) :
  empty (transform f s) = empty s.
Proof. now destruct s. Qed.

(** X5. [validate_parity] returns exactly when the parity, with its upper
    case letters made lower case, is none, odd or even; two spellings that
    differ in the case of their letters only have the same outcome. *)
Theorem validate_parity_exact (p q : string) :
  (validate_parity p = Returns ()
   <-> transform tolower p ∈ ["none"; "odd"; "even"])
  /\ (transform tolower p = transform tolower q ->
      validate_parity p = validate_parity q).
Proof.
  split.
  - unfold validate_parity, validate_non_empty_string.
    rewrite <- (transform_empty tolower p).
    rewrite !elem_of_cons, elem_of_nil.
    destruct (String.eqb_spec (transform tolower p) "none") as [->|Hn];
      [simpl; tauto|].
    destruct (String.eqb_spec (transform tolower p) "odd") as [->|Ho];
      [simpl; tauto|].
    destruct (String.eqb_spec (transform tolower p) "even") as [->|He];
      [simpl; tauto|].
    destruct (empty (transform tolower p)); simpl;
      split; try discriminate; tauto.
  - intros E. unfold validate_parity, validate_non_empty_string.
    rewrite <- (transform_empty tolower p), <- (transform_empty tolower q).
    now rewrite E.
Qed.

End ValidatorsMore.

(** ** Logging and copying *)

Section CommonMore.
Import Common InputValidator.

Lemma pop_back_app_char (m : string) (c : ascii) :
  pop_back (m ++ String c "") = m.
Proof.
  induction m as [|x m IH]; [reflexivity|].
  change (String x m ++ String c "") with (String x (m ++ String c "")).
  cbn [pop_back]. rewrite IH. now destruct m.
Qed.

(** X10. [log_message] logs a message without the newline that ends it, and
    takes off one newline only; a message that does not end with a newline
    is logged as it is. *)
Theorem log_message_newline (tag direction m : string) :
  log_message tag direction (m ++ String "010" "") = (tag, direction, m)
  /\ (m = "" \/ back m <> "010"%char ->
      log_message tag direction m = (tag, direction, m)).
Proof.
  unfold log_message, clean_message. split.
  - rewrite back_app_char, pop_back_app_char.
    now destruct m.
  - intros [->|Hb]; [reflexivity|].
    destruct (Ascii.eqb_spec (back m) "010"); [contradiction|].
    now rewrite andb_false_r.
Qed.

(** X11. [safe_memcpy] reports a null pointer before it looks at the size, and
    a size over 1 MiB whatever the buffers; a size of 0 leaves the
    destination as it is; otherwise the first [size] bytes of the
    destination become those of the source and the rest stays. *)
Theorem safe_memcpy_cases (dest src : list Byte.byte) (size : N) :
  (forall s n, thrown (safe_memcpy None s n) = true)
  /\ (forall n, thrown (safe_memcpy (Some dest) None n) = true)
  /\ safe_memcpy (Some dest) (Some src) 0 = Returns dest
  /\ ((MAX_COPY_SIZE < size)%N ->
      thrown (safe_memcpy (Some dest) (Some src) size) = true)
  /\ ((size <= MAX_COPY_SIZE)%N ->
      (N.to_nat size <= length dest)%nat ->
      (N.to_nat size <= length src)%nat ->
      exists d', safe_memcpy (Some dest) (Some src) size = Returns d'
                 /\ length d' = length dest
                 /\ take (N.to_nat size) d' = take (N.to_nat size) src
                 /\ drop (N.to_nat size) d' = drop (N.to_nat size) dest).
Proof.
  split; [reflexivity|]. split; [reflexivity|]. split; [reflexivity|].
  split.
  - intros Hbig. unfold safe_memcpy.
    destruct (N.eqb_spec size 0); [unfold MAX_COPY_SIZE in Hbig; lia|].
    destruct (N.ltb_spec MAX_COPY_SIZE size); [reflexivity|lia].
  - intros Hsmall Hd Hs. unfold safe_memcpy.
    destruct (N.eqb_spec size 0) as [->|Hnz].
    + exists dest. repeat split.
    + destruct (N.ltb_spec MAX_COPY_SIZE size); [lia|].
      exists (memcpy dest src size). unfold memcpy.
      assert (Hl : length (take (N.to_nat size) src) = N.to_nat size)
        by (rewrite length_take; lia).
      repeat split.
      * rewrite length_app, Hl, length_drop. lia.
      * rewrite take_app_le by lia. rewrite take_take. f_equal. lia.
      * rewrite drop_app_le by lia.
        rewrite (drop_ge (take _ _)) by lia. reflexivity.
Qed.

End CommonMore.

(** ** More on the wrapper *)

Section WrapperMore.
Import Common Wrapper.
Context {C : Type} `{!Channel C}.


Lemma start_started (s : TcpServer C) : started_ (fst (start s)) = true.
Proof.
  unfold start. destruct (started_ s) eqn:E; [exact E|].
  destruct (channel_ s) as [c|] eqn:Ec; simpl.
  - now rewrite Ec.
  - unfold setup_internal_handlers. simpl.
    destruct (client_limit_enabled_ s); simpl; [|reflexivity].
    unfold on_transport. simpl.
    match goal with |- context [is_transport_server ?c] =>
      destruct (is_transport_server c) end; reflexivity.
Qed.

(** X13. [start] on a started server does nothing: a second [start] changes
    nothing and has no event. *)
Theorem start_twice (s : TcpServer C) :
  start (fst (start s)) = (fst (start s), []).
Proof.
  pose proof (start_started s) as H.
  unfold start at 1. now rewrite H.
Qed.

(** X14. [stop] after [start] brings a server that had no channel back to what
    it was before [start]. *)
Theorem stop_undoes_start (s : TcpServer C) :
  started_ s = false -> channel_ s = None ->
  fst (stop (fst (start s))) = s.
Proof.
  intros Hs Hc. unfold start. rewrite Hs, Hc.
  unfold setup_internal_handlers. cbn [channel_ set_channel_].
  destruct s as [ch p st a1 a2 r1 r2 r3 le mc li d1 d2 d3 d4 m1 m2 m3].
  simpl in Hs, Hc. subst ch st. simpl.
  destruct le; simpl; [|reflexivity].
  unfold on_transport. simpl.
  match goal with |- context [is_transport_server ?c] =>
    destruct (is_transport_server c) end; reflexivity.
Qed.

(** X15. After [stop] the channel is gone, also a channel that was given to
    the constructor: the next [start] asks the factory for a new one, with
    the port and the retry settings that the server holds. *)
Theorem start_after_stop_creates (s : TcpServer C) :
  started_ s = true -> channel_ s <> None ->
  channel_ (fst (stop s)) = None
  /\ head (snd (start (fst (stop s)))) = Some (ChannelCreate (config_of s))
  /\ last (snd (start (fst (stop s)))) = Some ChannelStart.
Proof.
  intros Hs Hc. unfold stop. rewrite Hs.
  destruct (channel_ s) as [c|] eqn:Ec; [|contradiction]. clear Hc.
  split; [reflexivity|].
  unfold start. cbn [fst started_ set_started_ channel_ set_channel_].
  unfold setup_internal_handlers. cbn [channel_ set_channel_ fst snd].
  destruct (client_limit_enabled_ _) eqn:El.
  - unfold on_transport. cbn [channel_ set_channel_].
    match goal with |- context [is_transport_server ?c] =>
      destruct (is_transport_server c) end; split; reflexivity.
  - split; reflexivity.
Qed.

Lemma call_listening (c : Call) (s : TcpServer C) :
  is_listening (fst (call c s))
  = listening_after [c] (is_listening s).
Proof.
  unfold is_listening.
  destruct c; simpl;
    unfold stop, send_line, send, handle_bytes, broadcast, send_to_client,
      on_multi_connect, on_multi_data, on_multi_disconnect,
      set_client_limit, set_unlimited_clients, seq_, assign, on_transport;
    simpl; try reflexivity.
  - destruct (started_ s), (channel_ s); reflexivity.
  - destruct (is_connected s), (channel_ s); reflexivity.
  - destruct (is_connected s), (channel_ s); reflexivity.
  - destruct (on_data_ s); reflexivity.
  - destruct state; reflexivity.
  - destruct (channel_ s) as [c|]; [|reflexivity].
    destruct (is_transport_server c); reflexivity.
  - destruct (channel_ s) as [c|]; [|reflexivity].
    destruct (is_transport_server c); reflexivity.
  - destruct (channel_ s) as [c|]; [|reflexivity].
    destruct (is_transport_server c); reflexivity.
  - destruct (channel_ s) as [c|]; [|reflexivity].
    destruct (is_transport_server c); reflexivity.
  - destruct (channel_ s) as [c|]; [|reflexivity].
    destruct (is_transport_server c); reflexivity.
  - destruct (channel_ s) as [c|]; [|reflexivity].
    destruct (is_transport_server c); reflexivity.
  - destruct (channel_ s) as [c|]; [|reflexivity].
    destruct (is_transport_server c); reflexivity.
Qed.

(** X16. [is_listening] follows the state notifications and nothing else: after
    any run of calls it is what the last notification of Listening (true)
    or of Closed or Error (false) made it, and what it was before when
    there was none.  [stop] does not clear it. *)
Theorem is_listening_follows_states (calls : list Call) (s : TcpServer C) :
  is_listening (fst (run calls s))
  = listening_after calls (is_listening s).
Proof.
  revert s. induction calls as [|c calls IH]; intros s; [reflexivity|].
  cbn [run]. unfold seq_.
  pose proof (call_listening c s) as Hc.
  destruct (call c s) as [s1 t1]. specialize (IH s1).
  destruct (run calls s1) as [s2 t2]. cbn [fst] in *.
  rewrite IH, Hc. reflexivity.
Qed.

End WrapperMore.

(** ** More on the builder *)

Section BuilderMore.
Import Builder.
Context {C : Type} `{!Wrapper.Channel C}.
Variable server_auto_start : bool -> Wrapper.method C.



End BuilderMore.

(** ** More on the error handler *)

Section ErrorHandlerMore.
Import ErrorHandler.

Lemma call_recent (c : Call) (h : ErrorHandler) :
  recent_errors_ (call c h)
  = match c with
    | ReportError e =>
        if records e h
        then keep_last MAX_RECENT_ERRORS (recent_errors_ h ++ [e])
        else recent_errors_ h
    | _ => recent_errors_ h
    end.
Proof.
  destruct c; try reflexivity.
  simpl. unfold report_error, records.
  destruct (enabled_ h); simpl; [|reflexivity].
  now destruct (level_lt (level error) (min_level_ h)).
Qed.

Lemma run_recent (calls : list Call) (h : ErrorHandler)
    (log : list ErrorInfo) :
  recent_errors_ h = keep_last MAX_RECENT_ERRORS log ->
  recent_errors_ (run calls h)
  = keep_last MAX_RECENT_ERRORS (log ++ recorded calls h).
Proof.
  revert h log. induction calls as [|c calls IH]; intros h log Hinv.
  - simpl. now rewrite app_nil_r.
  - change (run (c :: calls) h) with (run calls (call c h)).
    cbn [recorded]. pose proof (call_recent c h) as Hc.
    destruct c as [e| | | | |];
      try (apply IH; rewrite Hc; exact Hinv).
    destruct (records e h) eqn:Hrec.
    + replace (log ++ e :: recorded calls (call (ReportError e) h))%list
        with ((log ++ [e]) ++ recorded calls (call (ReportError e) h))%list
        by (now rewrite <- app_assoc).
      apply IH. rewrite Hc, Hinv. apply keep_last_snoc.
    + apply IH. rewrite Hc. exact Hinv.
Qed.

(** X18. After any run of calls the ring of recent errors holds the last
    [MAX_RECENT_ERRORS] of the errors recorded, oldest first, and
    [get_recent_errors] gives the last [count] of these, or all of them
    when there are fewer. *)
Theorem recent_errors_most_recent (enabled : bool) (min_level : ErrorLevel)
    (calls : list Call) (count : nat) :
  let h0 := ErrorHandler_new enabled min_level in
  let log := recorded calls h0 in
  recent_errors_ (run calls h0) = drop (length log - MAX_RECENT_ERRORS) log
  /\ get_recent_errors count (run calls h0)
     = drop (length log - Nat.min count MAX_RECENT_ERRORS) log
  /\ length (get_recent_errors count (run calls h0))
     = Nat.min count (Nat.min (length log) MAX_RECENT_ERRORS).
Proof.
  intros h0 log.
  assert (E : recent_errors_ (run calls h0)
              = drop (length log - MAX_RECENT_ERRORS) log).
  { rewrite <- keep_last_drop. apply (run_recent calls h0 []). reflexivity. }
  assert (G : get_recent_errors count (run calls h0)
              = drop (length log - Nat.min count MAX_RECENT_ERRORS) log).
  { unfold get_recent_errors. rewrite E, length_drop, drop_drop.
    f_equal.
    destruct (Nat.ltb_spec count
                (length log - (length log - MAX_RECENT_ERRORS))); lia. }
  split; [exact E|]. split; [exact G|].
  rewrite G, length_drop. lia.
Qed.

Lemma wrapped_succ (n : nat) : wrapped (S n) = incr (wrapped n).
Proof.
  unfold wrapped, incr. rewrite Nat2N.inj_succ, <- N.add_1_r.
  now rewrite N.Div0.add_mod_idemp_l.
Qed.

Lemma filter_snoc_length {A} (p : A -> bool) (l : list A) (x : A) :
  length (List.filter p (l ++ [x]))
  = if p x then S (length (List.filter p l)) else length (List.filter p l).
Proof.
  rewrite List.filter_app, length_app. simpl.
  destruct (p x); simpl; lia.
Qed.

Lemma level_eqb_eq (a b : ErrorLevel) :
  level_eqb a b = true <-> level_int a = level_int b.
Proof. unfold level_eqb. apply Nat.eqb_eq. Qed.

Lemma category_eqb_eq (a b : ErrorCategory) :
  category_eqb a b = true <-> category_int a = category_int b.
Proof. unfold category_eqb. apply Nat.eqb_eq. Qed.

Lemma counts_reset : counts ErrorStats_reset [].
Proof.
  repeat split.
  - intros l. now destruct l.
  - intros c. now destruct c.
Qed.

Lemma counts_update (e : ErrorInfo) (st : ErrorStats)
    (log : list ErrorInfo) :
  counts st log -> counts (update_stats e st) (log ++ [e]).
Proof.
  intros (Ht & Hr & Hl & Hf & Hlev & Hcat).
  unfold counts, update_stats. cbn [total_errors retryable_errors
    last_error first_error errors_by_level errors_by_category].
  split; [|split; [|split; [|split; [|split]]]].
  - rewrite length_app, Nat.add_1_r, wrapped_succ. now rewrite Ht.
  - rewrite filter_snoc_length. destruct (retryable e).
    + rewrite wrapped_succ. now rewrite Hr.
    + exact Hr.
  - now rewrite last_snoc.
  - rewrite map_app, List.filter_app. simpl.
    destruct (List.filter _ (map timestamp log)) as [|t ts] eqn:F.
    + simpl in Hf. rewrite Hf. simpl.
      destruct (Z.eqb_spec (timestamp e) 0) as [E|]; simpl; congruence.
    + simpl in Hf. rewrite Hf. simpl.
      assert (Hin : In t (List.filter (fun t => negb (t =? 0)%Z)
                            (map timestamp log)))
        by (rewrite F; now left).
      apply List.filter_In in Hin as [_ Hnz].
      destruct (Z.eqb_spec t 0); [discriminate|reflexivity].
  - intros l. rewrite filter_snoc_length.
    destruct (level_eqb (level e) l) eqn:E.
    + apply level_eqb_eq in E. rewrite E, list_lookup_alter_eq, Hlev.
      simpl. now rewrite wrapped_succ.
    + rewrite list_lookup_alter_ne; [apply Hlev|].
      intros E'. apply level_eqb_eq in E'. congruence.
  - intros c. rewrite filter_snoc_length.
    destruct (category_eqb (category e) c) eqn:E.
    + apply category_eqb_eq in E. rewrite E, list_lookup_alter_eq, Hcat.
      simpl. now rewrite wrapped_succ.
    + rewrite list_lookup_alter_ne; [apply Hcat|].
      intros E'. apply category_eqb_eq in E'. congruence.
Qed.

Lemma run_counts (calls : list Call) (h : ErrorHandler)
    (acc : list ErrorInfo) :
  counts (stats_ h) acc ->
  counts (stats_ (run calls h)) (counted_from acc calls h).
Proof.
  revert h acc. induction calls as [|c calls IH]; intros h acc Hinv;
    [exact Hinv|].
  change (run (c :: calls) h) with (run calls (call c h)).
  cbn [counted_from].
  destruct c as [e| | | | |]; try (apply IH; exact Hinv).
  - apply IH. simpl. unfold report_error, records.
    destruct (enabled_ h); simpl; [|exact Hinv].
    destruct (level_lt (level e) (min_level_ h)); simpl; [exact Hinv|].
    now apply counts_update.
  - apply IH. apply counts_reset.
Qed.

(** X19. After any run of calls the statistics are those of the errors
    recorded since the last [reset_stats]: so many errors in all, of each
    level, of each category and retryable (the counters wrap at 2^64), the
    time of the last of them, and the time of the first of them that is
    not the epoch. *)
Theorem stats_count_recorded (enabled : bool) (min_level : ErrorLevel)
    (calls : list Call) :
  let h0 := ErrorHandler_new enabled min_level in
  counts (get_error_stats (run calls h0)) (counted calls h0).
Proof.
  intros h0. apply run_counts. apply counts_reset.
Qed.

Lemma keep_last_nil {A} (n : nat) (v : list A) :
  0 < n -> keep_last n v = [] <-> v = [].
Proof.
  intros Hn. rewrite keep_last_drop. split; [|now intros ->].
  intros H. apply (f_equal length) in H. rewrite length_drop in H.
  simpl in H. destruct v; [reflexivity|]. simpl in H. lia.
Qed.

(** X20. A component has errors exactly when an error was recorded for it: a
    run never forgets a component. *)
Theorem has_errors_recorded (enabled : bool) (min_level : ErrorLevel)
    (calls : list Call) (name : string) :
  let h0 := ErrorHandler_new enabled min_level in
  has_errors name (run calls h0) = true
  <-> exists e, e ∈ recorded calls h0 /\ component e = name.
Proof.
  intros h0.
  assert (E : get_errors_by_component name (run calls h0)
              = keep_last MAX_COMPONENT_ERRORS
                  (filter (fun e => component e = name)
                     ([] ++ recorded calls h0)%list))
    by (apply run_component; reflexivity).
  simpl app in E.
  assert (H : has_errors name (run calls h0) = true
              <-> get_errors_by_component name (run calls h0) <> []).
  { unfold has_errors, get_errors_by_component.
    destruct (errors_by_component_ (run calls h0) !! name) as [[|x l]|];
      simpl; split; congruence. }
  rewrite H, E, keep_last_nil by (unfold MAX_COMPONENT_ERRORS; lia).
  split.
  - intros Hne.
    destruct (filter _ (recorded calls h0)) as [|e l] eqn:F;
      [contradiction|].
    assert (Hin : e ∈ filter (fun e => component e = name)
                        (recorded calls h0))
      by (rewrite F; now left).
    apply list_elem_of_filter in Hin as [Hc Hin]. now exists e.
  - intros (e & Hin & Hc) F.
    assert (Hf : e ∈ filter (fun e => component e = name)
                       (recorded calls h0))
      by (apply list_elem_of_filter; split; assumption).
    rewrite F in Hf. now apply elem_of_nil in Hf.
Qed.

(** X21. The counts of the four levels add up to the number of errors kept for
    the component; for a component without errors they are 0. *)
Theorem get_error_count_partition (name : string) (h : ErrorHandler) :
  (get_error_count name INFO h + get_error_count name WARNING h
   + get_error_count name ERROR h + get_error_count name CRITICAL h)%N
  = N.of_nat (length (get_errors_by_component name h)).
Proof.
  unfold get_error_count, get_errors_by_component.
  destruct (errors_by_component_ h !! name) as [errors|]; [|reflexivity].
  induction errors as [|e errors IH]; [reflexivity|].
  simpl. destruct (level e); simpl; lia.
Qed.

End ErrorHandlerMore.

(** ** The characters of an accepted host *)

Section HostChars.
Import CType StrTo Stream InputValidator.

Lemma all_chars_impl (p q : ascii -> bool) (s : string) :
  (forall c, p c = true -> q c = true) ->
  all_chars p s = true -> all_chars q s = true.
Proof.
  intros Hpq. induction s as [|c s IH]; [reflexivity|]. simpl.
  rewrite !andb_true_iff. intros [Hc Hs]. split; [now apply Hpq|now apply IH].
Qed.

Lemma all_chars_app (p : ascii -> bool) (a b : string) :
  all_chars p (a ++ b) = all_chars p a && all_chars p b.
Proof.
  induction a as [|c a IH]; [reflexivity|].
  rewrite string_app_cons. simpl. now rewrite IH, andb_assoc.
Qed.

Lemma all_chars_join (p : ascii -> bool) (d : ascii) (parts : list string) :
  p d = true -> Forall (fun x => all_chars p x = true) parts ->
  all_chars p (Text.join d parts) = true.
Proof.
  intros Hd. induction parts as [|x [|y l] IH]; intros H; [reflexivity| |].
  - now apply Forall_cons in H as [Hx _].
  - apply Forall_cons in H as [Hx Hl]. rewrite join_cons, all_chars_app.
    simpl. rewrite Hx, Hd. now apply IH.
Qed.

Lemma all_chars_getlines (p : ascii -> bool) (d : ascii) (s : string) :
  p d = true ->
  Forall (fun x => all_chars p x = true) (getlines d s) ->
  all_chars p s = true.
Proof.
  intros Hd Hall. pose proof (all_chars_join p d _ Hd Hall) as Hj.
  destruct (join_getlines d s) as [E|E]; rewrite E; [exact Hj|].
  rewrite all_chars_app, Hj. simpl. now rewrite Hd.
Qed.

Lemma isdigit_host_char (c : ascii) :
  isdigit c = true -> Text.host_char c = true.
Proof.
  intros H. unfold Text.host_char, isalnum. rewrite H.
  now rewrite orb_true_r.
Qed.

Lemma isxdigit_host_char (c : ascii) :
  isxdigit c = true -> Text.host_char c = true.
Proof.
  destruct c as [[] [] [] [] [] [] [] []]; intros H;
    try discriminate H; reflexivity.
Qed.

Lemma label_host_char (c : ascii) :
  isalnum c || Ascii.eqb c "-" = true -> Text.host_char c = true.
Proof.
  unfold Text.host_char. intros [H|H]%orb_true_iff; rewrite H;
    now rewrite ?orb_true_r.
Qed.

(** X22. [validate_host] accepts no string with a character other than an
    alphanumeric, a dot, a hyphen or a colon: no blank, no slash, no
    control character. *)
Theorem validate_host_characters (s : string) :
  validate_host s = Returns () -> all_chars Text.host_char s = true.
Proof.
  unfold validate_host, validate_non_empty_string, validate_string_length.
  destruct (empty s); [discriminate|].
  destruct (MAX_HOSTNAME_LENGTH <? size s)%N; [discriminate|]. simpl.
  destruct (is_valid_ipv4 s) eqn:H4.
  { intros _. unfold is_valid_ipv4 in H4.
    destruct (negb _); [discriminate|].
    rewrite List.forallb_forall in H4.
    apply (all_chars_getlines _ "."); [reflexivity|].
    apply Forall_forall. intros o Ho. apply list_elem_of_In, H4 in Ho.
    apply valid_octet_digits in Ho as [Ho _].
    eapply all_chars_impl; [apply isdigit_host_char|exact Ho]. }
  destruct (is_valid_ipv6 s) eqn:H6.
  { intros _. unfold is_valid_ipv6 in H6.
    rewrite !orb_true_iff, !String.eqb_eq, match_groups_exact in H6.
    destruct H6 as [[(groups & _ & Hall & ->)| ->]| ->];
      [|reflexivity..].
    apply all_chars_join; [reflexivity|].
    eapply Forall_impl; [exact Hall|]. intros g Hg. simpl in Hg.
    unfold Text.hex_group in Hg. apply andb_true_iff in Hg as [_ Hg].
    eapply all_chars_impl; [apply isxdigit_host_char|exact Hg]. }
  destruct (is_valid_hostname s) eqn:Hh; [|discriminate]. intros _.
  unfold is_valid_hostname in Hh.
  destruct (empty s || _); [discriminate|].
  destruct (Ascii.eqb (front s) "-" || _); [discriminate|].
  rewrite List.forallb_forall in Hh.
  apply (all_chars_getlines _ "."); [reflexivity|].
  apply Forall_forall. intros l Hl. apply list_elem_of_In, Hh in Hl.
  unfold valid_label in Hl. destruct (empty l || _); [discriminate|].
  eapply all_chars_impl; [apply label_host_char|exact Hl].
Qed.

End HostChars.

(** ** The client limit at start *)

Section LimitAtStart.
Import Wrapper.
Context {C : Type} `{!Channel C}.

(** X23. A limit set before [start] is applied to the channel that [start]
    creates, when that channel is a [transport::TcpServer]: a limit of 0 as
    [set_unlimited_clients], any other limit as [set_client_limit].  After
    [set_unlimited_clients] nothing is applied: the channel keeps the limit
    it was created with. *)
Theorem limit_applied_at_start (s : TcpServer C) (n : N) :
  started_ s = false -> channel_ s = None ->
  channel_ (fst (start (fst (set_client_limit n s))))
  = Some (ch_start
            (if is_transport_server (fresh_channel s) then
               if (n =? 0)%N
               then ts_set_unlimited_clients (fresh_channel s)
               else ts_set_client_limit n (fresh_channel s)
             else fresh_channel s))
  /\ channel_ (fst (start (fst (set_unlimited_clients s))))
     = Some (ch_start (fresh_channel s)).
Proof.
  intros Hs Hc.
  destruct s as [ch p st a1 a2 r1 r2 r3 le mc li d1 d2 d3 d4 m1 m2 m3].
  simpl in Hs, Hc. subst ch st.
  unfold set_client_limit, set_unlimited_clients, seq_, assign,
    on_transport, start, fresh_channel, setup_internal_handlers.
  cbn [fst snd channel_ started_ set_channel_ set_started_
       set_client_limit_enabled_ set_max_clients_ client_limit_enabled_
       max_clients_ port_ port_retry_enabled_ max_port_retries_
       port_retry_interval_ms_ on_multi_connect_ on_multi_data_
       on_multi_disconnect_].
  destruct (n =? 0)%N eqn:En; cbn;
    repeat (match goal with
            | |- context [is_transport_server ?c] =>
                destruct (is_transport_server c) eqn:?; cbn
            end);
    rewrite ?En; split; reflexivity.
Qed.

End LimitAtStart.

(** ** The properties above on concrete inputs *)

Lemma validate_host_accepts_rfc1123_witness :
  Stated.rfc1123_hostname "my-host.example.org" = true
  /\ InputValidator.validate_host "my-host.example.org" = Returns ().
Proof.
  split; [reflexivity|]. apply validate_host_accepts_rfc1123. reflexivity.
Defined.

Lemma validate_host_hostname_sound_witness :
  (1 <= InputValidator.size "node-1.lan" <= 253)%N
  /\ InputValidator.front "node-1.lan" <> "-"%char
  /\ InputValidator.back "node-1.lan" <> "-"%char
  /\ forall l, l ∈ Stream.getlines "." "node-1.lan" ->
       (1 <= InputValidator.size l <= 63)%N
       /\ InputValidator.all_chars
            (fun c => CType.isalnum c || Ascii.eqb c "-") l = true.
Proof. apply validate_host_hostname_sound; reflexivity. Defined.

Lemma validate_device_path_accepts_stated_witness :
  Stated.device_path "/dev/ttyUSB0" = true
  /\ InputValidator.validate_device_path "/dev/ttyUSB0" = Returns ().
Proof.
  split; [reflexivity|].
  apply validate_device_path_accepts_stated. reflexivity.
Defined.

Lemma validate_device_path_sound_witness :
  (1 <= InputValidator.size "COM7" <= 256)%N
  /\ (Stated.unix_path "COM7" = true
      \/ Stated.reserved_name "COM7" = true
      \/ (String.eqb (InputValidator.substr_to 3 "COM7") "COM" = true
          /\ exists port,
               StrTo.stoi (InputValidator.substr_from 3 "COM7")
               = Returns port /\ (1 <= port <= 255)%Z)).
Proof. apply validate_device_path_sound. reflexivity. Defined.

Lemma validate_host_accepts_addresses_witness :
  InputValidator.validate_ipv4_address "192.168.0.1" = Returns ()
  /\ InputValidator.validate_host "192.168.0.1" = Returns ().
Proof.
  split; [reflexivity|].
  apply validate_host_accepts_addresses. left. reflexivity.
Defined.

Lemma trailing_dot_ignored_witness :
  InputValidator.is_valid_ipv4 ("10.0.0.1" ++ ".")
  = InputValidator.is_valid_ipv4 "10.0.0.1"
  /\ InputValidator.validate_host ("example.com" ++ ".") = Returns ().
Proof.
  split.
  - apply (trailing_dot_ignored "10.0.0.1"); discriminate.
  - apply (trailing_dot_ignored "example.com"); try discriminate;
      reflexivity.
Defined.

Lemma validate_parity_exact_witness :
  InputValidator.validate_parity "EvEn" = Returns ()
  /\ InputValidator.validate_parity "EvEn"
     = InputValidator.validate_parity "even".
Proof.
  split.
  - apply (proj1 (validate_parity_exact "EvEn" "even")).
    vm_compute. set_solver.
  - apply (proj2 (validate_parity_exact "EvEn" "even")). reflexivity.
Defined.

Lemma log_message_newline_witness :
  Common.log_message "client" "RX" "ready" = ("client", "RX", "ready").
Proof.
  apply (proj2 (log_message_newline "client" "RX" "ready")).
  right. discriminate.
Defined.

Lemma safe_memcpy_cases_witness :
  exists d',
    Common.safe_memcpy (Some [Byte.x01; Byte.x02; Byte.x03])
      (Some [Byte.x0a; Byte.x0b]) 2
    = Returns d'
    /\ length d' = 3
    /\ take 2 d' = [Byte.x0a; Byte.x0b]
    /\ drop 2 d' = [Byte.x03].
Proof.
  apply (proj2 (proj2 (proj2 (proj2
           (safe_memcpy_cases [Byte.x01; Byte.x02; Byte.x03]
              [Byte.x0a; Byte.x0b] 2%N))))).
  - discriminate.
  - simpl. lia.
  - simpl. lia.
Defined.


Lemma stop_undoes_start_witness :
  let s := Wrapper.TcpServer_new (C := Recorder.Chan) 8080 in
  fst (Wrapper.stop (fst (Wrapper.start s))) = s.
Proof. intros s. apply stop_undoes_start; reflexivity. Defined.

Lemma start_after_stop_creates_witness :
  let s := fst (Wrapper.start
                  (Wrapper.TcpServer_of_channel Recorder.online)) in
  Wrapper.channel_ (fst (Wrapper.stop s)) = None
  /\ head (snd (Wrapper.start (fst (Wrapper.stop s))))
     = Some (Wrapper.ChannelCreate (Wrapper.config_of s))
  /\ last (snd (Wrapper.start (fst (Wrapper.stop s))))
     = Some Wrapper.ChannelStart.
Proof.
  intros s. apply start_after_stop_creates; [reflexivity|discriminate].
Defined.


Lemma validate_host_characters_witness :
  InputValidator.validate_host "fe80:0:0:0:0:0:0:1" = Returns ()
  /\ InputValidator.all_chars Text.host_char "fe80:0:0:0:0:0:0:1" = true.
Proof.
  split; [reflexivity|]. apply validate_host_characters. reflexivity.
Defined.

Lemma limit_applied_at_start_witness :
  let s := Wrapper.TcpServer_new (C := Recorder.Chan) 8080 in
  Recorder.limit <$>
    Wrapper.channel_ (fst (Wrapper.start (fst (Wrapper.set_client_limit 4 s))))
  = Some (Some 4%N)
  /\ Recorder.limit <$>
       Wrapper.channel_
         (fst (Wrapper.start (fst (Wrapper.set_unlimited_clients s))))
     = Some None.
Proof.
  intros s.
  destruct (limit_applied_at_start s 4 eq_refl eq_refl) as [H1 H2].
  rewrite H1, H2. split; reflexivity.
Defined.
